(** * A Naive Bayes post classifier: shallow embedding of [classifier.cpp]

    The development follows the C++ source function by function.

    - [int] is a 32-bit signed integer: counters are [Z] values and every
      [x++] is checked against [INT_MAX]; signed overflow is undefined
      behaviour and is reported as the fault [SignedOverflow].
    - [std::map<string, V>] is a finite map ([gmap string V]) whose iteration
      visits the entries in ascending key order ([map_items]);
      [std::set<string>] is a finite set ([gset string]) iterated in
      ascending order ([set_items]).  [std::string] comparison is the
      lexicographic order on unsigned characters ([String.ltb]).
    - [double] arithmetic and [log] from [<cmath>] are an interface
      ([FloatOps]) and the theorems hold for every instance; the facts of
      IEEE 754 arithmetic that a proof needs are laws ([FloatLaws],
      [FloatSums]).  [RealOps] and [SatOps] are instances over the reals
      that only serve to apply the theorems at concrete inputs.
    - [cout] is the list of items written to it.
    - The record source ([csvstream]) is an external header: an opened file
      is the list of rows that [csv >> row] yields. *)

From Stdlib Require Import ZArith String Ascii List.
From Stdlib Require Reals Lra.
From stdpp Require Import gmap strings list fin_maps sorting.

Local Open Scope Z_scope.
#[local] Set Warnings "-clear-no-such-hyp".

(** ** Faults and the result monad *)

Inductive fault : Set :=
| SignedOverflow   (* [x++] on an [int] holding [INT_MAX] *)
| OutOfRange.      (* [std::map::at] on a missing key *)

Inductive result (A : Type) : Type :=
| Ok (a : A)
| Fault (f : fault).
Arguments Ok {A} a.
Arguments Fault {A} f.

#[export] Instance result_ret : MRet result := λ A a, Ok a.
#[export] Instance result_bind : MBind result := λ A B k r,
  match r with
  | Ok a => k a
  | Fault f => Fault f
  end.

(** A loop over a sequence whose body may fault. *)
Fixpoint foldM {A B : Type} (f : B → A → result B) (l : list A) (b : B) : result B :=
  match l with
  | [] => Ok b
  | x :: l' => b' ← f b x; foldM f l' b'
  end.

(** ** Machine integers *)

Definition INT_MAX : Z := 2147483647.

(** [x++] on an [int]. *)
Definition int_incr (x : Z) : result Z :=
  if x <? INT_MAX then Ok (x + 1) else Fault SignedOverflow.

(** ** Ordered containers *)

(** The value [m[k]] would have: the stored one, or the value-initialised
    default when the key is absent. *)
Definition count_of (m : gmap string Z) (k : string) : Z := default 0 (m !! k).

(** [m[k]++] on a [map<string, int>]. *)
Definition map_incr (k : string) (m : gmap string Z) : result (gmap string Z) :=
  v ← int_incr (count_of m k); Ok (<[k := v]> m).

(** [m.at(k)]. *)
Definition map_at (m : gmap string Z) (k : string) : result Z :=
  match m !! k with
  | Some v => Ok v
  | None => Fault OutOfRange
  end.

Definition key_le {V : Type} (p q : string * V) : Prop := String.le p.1 q.1.

#[export] Instance key_le_dec {V : Type} : RelDecision (@key_le V).
Proof. intros p q. unfold key_le. apply _. Defined.

(** The strict order on keys. *)
Definition key_lt {V : Type} (p q : string * V) : Prop := String.ltb p.1 q.1 = true.

(** Iteration over a [std::map]: entries in ascending key order. *)
Definition map_items {V : Type} (m : gmap string V) : list (string * V) :=
  merge_sort key_le (map_to_list m).

(** Iteration over a [std::set<string>]: elements in ascending order. *)
Definition set_items (s : gset string) : list string :=
  merge_sort String.le (elements s).

(** ** [unique_words] *)

(** [isspace] in the classic locale: space, and the controls 9 to 13. *)
Definition isspace (c : ascii) : bool :=
  let n := N_of_ascii c in
  ((n =? 32) || ((9 <=? n) && (n <=? 13)))%N.

(** The words that repeated [source >> word] extracts: the maximal runs of
    non-space characters.  [cur] is the run being read. *)
Fixpoint extract_words (cur : string) (s : string) : list string :=
  match s with
  | EmptyString => if decide (cur = ""%string) then [] else [cur]
  | String ch s' =>
      if isspace ch
      then (if decide (cur = ""%string) then extract_words "" s'
            else cur :: extract_words "" s')
      else extract_words (cur +:+ String ch "") s'
  end.

Definition unique_words (str : string) : gset string :=
  list_to_set (extract_words "" str).

(** ** The classifier state *)

Record Classifier : Type := mkClassifier {
  total_posts : Z;
  vocabulary : gset string;
  numPosts_word : gmap string Z;
  numPosts_label : gmap string Z;
  numPosts_label_word : gmap string (gmap string Z);
  trainingData : list (string * string)
}.

(** A default-constructed [Classifier]. *)
Definition empty_classifier : Classifier :=
  mkClassifier 0 ∅ ∅ ∅ ∅ [].

(** The counts the specification names, read off the tables: an absent
    entry counts zero. *)
Definition TotalDocuments (c : Classifier) : Z := total_posts c.
Definition Vocabulary (c : Classifier) : gset string := vocabulary c.
Definition LabelFrequency (c : Classifier) (label : string) : Z :=
  count_of (numPosts_label c) label.
Definition DocFrequency (c : Classifier) (word : string) : Z :=
  count_of (numPosts_word c) word.
Definition LabelWordFrequency (c : Classifier) (label word : string) : Z :=
  count_of (default ∅ (numPosts_label_word c !! label)) word.

(** One record of the CSV stream, and [row[k]] on it. *)
Definition csv_row : Type := gmap string string.

Definition row_get (row : csv_row) (k : string) : string := default ""%string (row !! k).

(** The row of a post with the given label and content. *)
Definition post (label content : string) : csv_row :=
  <["tag"%string := label]> (<["content"%string := content]> ∅).

(** Body of the loop over [words] in [train]. *)
Definition train_word (label : string) (c : Classifier) (word : string) : result Classifier :=
  let voc := {[word]} ∪ vocabulary c in
  npw ← map_incr word (numPosts_word c);
  inner ← map_incr word (default ∅ (numPosts_label_word c !! label));
  Ok (mkClassifier (total_posts c) voc npw (numPosts_label c)
        (<[label := inner]> (numPosts_label_word c)) (trainingData c)).

(** Body of the loop over the rows in [train]. *)
Definition train_row (c : Classifier) (row : csv_row) : result Classifier :=
  tp ← int_incr (total_posts c);
  let label := row_get row "tag" in
  npl ← map_incr label (numPosts_label c);
  let content := row_get row "content" in
  let words := unique_words content in
  let td := trainingData c ++ [(label, content)] in
  foldM (train_word label) (set_items words)
    (mkClassifier tp (vocabulary c) (numPosts_word c) npl
       (numPosts_label_word c) td).

(** The reading loop of [train] over the rows of an opened file. *)
Definition train_rows (rows : list csv_row) (c : Classifier) : result Classifier :=
  foldM train_row rows c.

(** ** Floating point *)

(** The [double] operations the program uses.  [of_int] is the conversion
    [static_cast<double>(n)] (also the implicit one of an [int] operand, and
    the literal [1.0] is [of_int 1]); [flog] is [log] from [<cmath>];
    [fgt] and [feq] are [>] and [==]; [lowest] is
    [numeric_limits<double>::lowest()]. *)
Class FloatOps : Type := {
  double : Type;
  of_int : Z → double;
  fdiv : double → double → double;
  fadd : double → double → double;
  flog : double → double;
  fgt : double → double → bool;
  feq : double → double → bool;
  lowest : double
}.

(** The facts about [>] and [==] that the arg-max argument uses.  They hold
    of IEEE 754 comparisons on all values, NaN included. *)
Class FloatLaws (F : FloatOps) : Prop := {
  fgt_irrefl : ∀ x : double, fgt x x = false;
  fgt_trans : ∀ x y z : double, fgt x y = true → fgt y z = true → fgt x z = true;
  feq_fgt : ∀ x y z : double, feq x y = true → fgt y z = true → fgt x z = true
}.

(** [x >= y], as [x > y || x == y]. *)
Definition fge `{FloatOps} (x y : double) : bool := fgt x y || feq x y.

(** The facts about sums of logarithms that bound a score from below.
    They hold of binary64 arithmetic with rounding to nearest and of a
    [log] that is accurate to a few units: the quotient of two counts
    [1 <= p <= q <= INT_MAX] lies in [[2^-31, 1]], so its logarithm is at
    least [-21.5]; and adding a term that is at least [-32] to a sum that
    is at least [-2^59] gives, after rounding, a sum that is at least
    [-2^59] again, because the doubles below [-2^59] are [128] apart.
    [of_int z] at [-32] and [-2^59] is the double of that integer, which
    is exact. *)
Class FloatSums (F : FloatOps) : Prop := {
  log_ratio_floor : ∀ p q : Z,
    1 ≤ p ≤ q → q ≤ INT_MAX →
    fge (flog (fdiv (of_int p) (of_int q))) (of_int (-32)) = true;
  fadd_floor : ∀ s t : double,
    fge s (of_int (- 2 ^ 59)) = true → fge t (of_int (-32)) = true →
    fge (fadd s t) (of_int (- 2 ^ 59)) = true;
  term_floor_above : fgt (of_int (-32)) (of_int (- 2 ^ 59)) = true;
  sum_floor_above : fgt (of_int (- 2 ^ 59)) lowest = true
}.

(** Arithmetic over the reals, to apply the theorems at concrete inputs. *)
Module RealArith.
Import Reals.Rdefinitions.

(** [DBL_MAX = (2^53 - 1) * 2^971]. *)
Definition DBL_MAX : R := IZR ((2 ^ 53 - 1) * 2 ^ 971).

Definition Rgtb (x y : R) : bool := if RIneq.Rgt_dec x y then true else false.
Definition Reqb (x y : R) : bool := if RIneq.Req_dec_T x y then true else false.

Definition RealOps : FloatOps := {|
  double := R;
  of_int := IZR;
  fdiv := Rdiv;
  fadd := Rplus;
  flog := Rpower.ln;
  fgt := Rgtb;
  feq := Reqb;
  lowest := Ropp DBL_MAX
|}.

(** The same with an addition that does not go below [-2^59], as the
    rounded addition of doubles does for the sums of [FloatSums]. *)
Definition SatOps : FloatOps := {|
  double := R;
  of_int := IZR;
  fdiv := Rdiv;
  fadd := λ x y, Rbasic_fun.Rmax (Rplus x y) (IZR (- 2 ^ 59));
  flog := Rpower.ln;
  fgt := Rgtb;
  feq := Reqb;
  lowest := Ropp DBL_MAX
|}.
End RealArith.

(** ** Standard output *)

(** One item inserted into [cout] with [<<]. *)
Inductive out_item `{FloatOps} : Type :=
| OStr (s : string)
| OInt (n : Z)
| ODouble (d : double)
| OEndl.

Section Classifier.
Context `{F : FloatOps}.

Definition getTotalPosts (c : Classifier) : Z := total_posts c.

(** [vocabulary.size()] as an [int]; the value is exact while the size is
    at most [INT_MAX]. *)
Definition getVocabularySize (c : Classifier) : Z := Z.of_nat (size (vocabulary c)).

(** [Classifier::calculate_log_likelihood]. *)
Definition calculate_log_likelihood (c : Classifier) (label word : string)
  : result double :=
  let count :=
    match numPosts_label_word c !! label with
    | Some inner =>
        match inner !! word with
        | Some n => n
        | None => 0
        end
    | None => 0
    end in
  if 0 <? count then
    n ← map_at (numPosts_label c) label;
    let probability := fdiv (of_int count) (of_int n) in
    Ok (flog probability)
  else
    let globalCount :=
      match numPosts_word c !! word with
      | Some g => g
      | None => 0
      end in
    if 0 <? globalCount then
      let probability := fdiv (of_int globalCount) (of_int (total_posts c)) in
      Ok (flog probability)
    else
      let probability := fdiv (of_int 1) (of_int (total_posts c)) in
      Ok (flog probability).

(** [Classifier::print_training_data]. *)
Definition print_training_data (c : Classifier) : list out_item :=
  [OStr "training data:"; OEndl]
  ++ flat_map (λ example : string * string,
       [OStr "  label = "; OStr example.1; OStr ", content = ";
        OStr example.2; OEndl]) (trainingData c)
  ++ [OStr "trained on "; OInt (getTotalPosts c); OStr " examples"; OEndl;
      OStr "vocabulary size = "; OInt (Z.of_nat (size (vocabulary c))); OEndl;
      OEndl].

(** The log-prior of a label with [count] posts, as both [predict] and
    [print_classifier_parameters] compute it. *)
Definition log_prior_of (c : Classifier) (count : Z) : double :=
  flog (fdiv (of_int count) (of_int (total_posts c))).

(** One line of the "classes:" section. *)
Definition class_line (c : Classifier) (entry : string * Z) : list out_item :=
  let label := entry.1 in
  let count := entry.2 in
  let log_prior := log_prior_of c count in
  [OStr "  "; OStr label; OStr ", "; OInt count;
   OStr " examples, log-prior = "; ODouble log_prior; OEndl].

(** The "classes:" section of [print_classifier_parameters]. *)
Definition print_classes (c : Classifier) : list out_item :=
  [OStr "classes:"; OEndl]
  ++ flat_map (class_line c) (map_items (numPosts_label c)).

(** One line of the "classifier parameters:" section. *)
Definition parameter_line (c : Classifier) (label : string) (out : list out_item)
    (it : string * Z) : result (list out_item) :=
  let word := it.1 in
  let count := it.2 in
  log_likelihood ← calculate_log_likelihood c label word;
  Ok (out ++ [OStr "  "; OStr label; OStr ":"; OStr word; OStr ", count = ";
              OInt count; OStr ", log-likelihood = "; ODouble log_likelihood;
              OEndl]).

(** [Classifier::print_classifier_parameters]. *)
Definition print_classifier_parameters (c : Classifier) : result (list out_item) :=
  foldM (λ out (entry : string * gmap string Z),
           foldM (parameter_line c entry.1) (map_items entry.2) out)
    (map_items (numPosts_label_word c))
    (print_classes c ++ [OStr "classifier parameters:"; OEndl]).

(** The score of one label in [predict]: the log-prior plus the
    log-likelihood of every word, added in the iteration order of the
    word set. *)
Definition label_score (c : Classifier) (words : list string)
    (label : string) (label_count : Z) : result double :=
  foldM (λ score w, ll ← calculate_log_likelihood c label w; Ok (fadd score ll))
    words (log_prior_of c label_count).

(** Body of the loop over the labels in [predict]; [best] is
    [(best_label, best_score)]. *)
Definition predict_step (c : Classifier) (words : list string)
    (best : string * double) (label_entry : string * Z) : result (string * double) :=
  let label := label_entry.1 in
  let label_count := label_entry.2 in
  score ← label_score c words label label_count;
  if fgt score best.2 || (feq score best.2 && String.ltb label best.1)
  then Ok (label, score)
  else Ok best.

(** [Classifier::predict]: the returned label and the score left in
    [best_score]. *)
Definition predict (c : Classifier) (content : string) : result (string * double) :=
  let words := unique_words content in
  foldM (predict_step c (set_items words)) (map_items (numPosts_label c))
    (""%string, lowest).
End Classifier.

(** ** The program *)

(** The file system: the rows of the file at a path, or [None] when the
    [ifstream] does not open. *)
Definition file_system : Type := string → option (list csv_row).

Section Program.
Context `{F : FloatOps}.
Variable fs : file_system.

(** [Classifier::train]: the classifier after the call, and what it wrote
    to [cout]. *)
Definition train (filename : string) (c : Classifier)
  : result (Classifier * list out_item) :=
  match fs filename with
  | None => Ok (c, [OStr "Error opening file: "; OStr filename; OEndl])
  | Some rows => c' ← train_rows rows c; Ok (c', [])
  end.

(** Body of the loop over the test rows in [main]; the state is
    [(correct, total)] and the output so far. *)
Definition test_row (c : Classifier) (st : Z * Z * list out_item) (row : csv_row)
  : result (Z * Z * list out_item) :=
  let '(correct, total, out) := st in
  total' ← int_incr total;
  let true_label := row_get row "tag" in
  let content := row_get row "content" in
  '(predicted_label, score) ← predict c content;
  correct' ← (if decide (predicted_label = true_label)
              then int_incr correct else Ok correct);
  Ok (correct', total',
      out ++ [OStr "  correct = "; OStr true_label; OStr ", predicted = ";
              OStr predicted_label; OStr ", log-probability score = ";
              ODouble score; OEndl;
              OStr "  content = "; OStr content; OEndl; OEndl]).

(** [main]: what the process writes to [cout] and its exit status.
    [argv] holds the program name and the arguments, so [argc] is its
    length. *)
Definition main (argv : list string) : result (list out_item * Z) :=
  let argc := Z.of_nat (length argv) in
  if (argc <? 2) || (3 <? argc) then
    Ok ([OStr "Usage: classifier.exe TRAIN_FILE [TEST_FILE]"; OEndl], 1)
  else
    let train_file := default ""%string (argv !! 1%nat) in
    '(classifier, out0) ← train train_file empty_classifier;
    out1 ← (if argc =? 2
            then params ← print_classifier_parameters classifier;
                 Ok (out0 ++ print_training_data classifier ++ params)
            else Ok out0);
    if argc =? 3 then
      let test_file := default ""%string (argv !! 2%nat) in
      match fs test_file with
      | None =>
          Ok (out1 ++ [OStr "Error opening file: "; OStr test_file; OEndl], 1)
      | Some rows =>
          let out2 := out1 ++ [OStr "trained on "; OInt (getTotalPosts classifier);
                               OStr " examples"; OEndl; OEndl;
                               OStr "test data:"; OEndl] in
          '(correct, total, out3) ← foldM (test_row classifier) rows (0, 0, out2);
          Ok (out3 ++ [OStr "performance: "; OInt correct; OStr " / "; OInt total;
                       OStr " posts predicted correctly"; OEndl; OEndl], 0)
      end
    else Ok (out1, 0).
End Program.

(** ** Notions used to state the properties *)

(** Adding one to the count of every word of a set. *)
Definition bump (ws : gset string) (m : gmap string Z) : gmap string Z :=
  union_with (λ n one, Some (n + one)) m (gset_to_gmap 1 ws).

(** The classifier that [train_row] produces when no counter overflows. *)
Definition ingest (c : Classifier) (label content : string) : Classifier :=
  let ws := unique_words content in
  mkClassifier (total_posts c + 1) (ws ∪ vocabulary c)
    (bump ws (numPosts_word c))
    (<[label := count_of (numPosts_label c) label + 1]> (numPosts_label c))
    (if decide (ws = ∅) then numPosts_label_word c
     else <[label := bump ws (default ∅ (numPosts_label_word c !! label))]>
            (numPosts_label_word c))
    (trainingData c ++ [(label, content)]).

(** Training on a sequence of rows when no counter overflows. *)
Definition ingest_all (rows : list csv_row) (c : Classifier) : Classifier :=
  fold_left (λ c row, ingest c (row_get row "tag") (row_get row "content")) rows c.

(** Two classifiers with the same counts; the stored training data, which
    only [print_training_data] reads, may differ. *)
Definition same_tables (c c' : Classifier) : Prop :=
  total_posts c = total_posts c' ∧ vocabulary c = vocabulary c' ∧
  numPosts_word c = numPosts_word c' ∧ numPosts_label c = numPosts_label c' ∧
  numPosts_label_word c = numPosts_label_word c'.

(** A table that only grows: every entry stays, with a count that is not
    smaller. *)
Definition grows (m m' : gmap string Z) : Prop :=
  ∀ k n, m !! k = Some n → ∃ n', m' !! k = Some n' ∧ n ≤ n'.

(** Every table of [c'] extends the corresponding table of [c]. *)
Definition extends (c c' : Classifier) : Prop :=
  Vocabulary c ⊆ Vocabulary c' ∧
  grows (numPosts_word c) (numPosts_word c') ∧
  (∀ w : string, DocFrequency c w ≤ DocFrequency c' w) ∧
  grows (numPosts_label c) (numPosts_label c') ∧
  (∀ l : string, LabelFrequency c l ≤ LabelFrequency c' l) ∧
  (∀ l inner, numPosts_label_word c !! l = Some inner →
              ∃ inner', numPosts_label_word c' !! l = Some inner' ∧ grows inner inner') ∧
  (∀ l w : string, LabelWordFrequency c l w ≤ LabelWordFrequency c' l w) ∧
  TotalDocuments c ≤ TotalDocuments c' ∧
  trainingData c `prefix_of` trainingData c'.

(** The sum of [f] over the values of a map. *)
Definition sum_over {V : Type} (f : V → Z) (m : gmap string V) : Z :=
  map_fold (λ _ v acc, f v + acc) 0 m.

(** A classifier reached from the default-constructed one by training on
    some sequence of rows. *)
Definition trained (c : Classifier) : Prop :=
  ∃ rows : list csv_row, train_rows rows empty_classifier = Ok c.

(** Count consistency: the two equalities between the tables. *)
Record consistent (c : Classifier) : Prop := {
  total_is_sum : TotalDocuments c = sum_over id (numPosts_label c);
  doc_is_sum : ∀ w : string,
    DocFrequency c w = sum_over (λ inner, count_of inner w) (numPosts_label_word c)
}.

(** The shape of the tables of a trained classifier. *)
Record well_formed (c : Classifier) : Prop := {
  wf_total : 0 ≤ total_posts c ≤ INT_MAX;
  wf_label : ∀ l n, numPosts_label c !! l = Some n → 1 ≤ n ≤ total_posts c;
  wf_word : ∀ w n, numPosts_word c !! w = Some n → 1 ≤ n ≤ total_posts c;
  wf_label_word : ∀ l inner w n,
    numPosts_label_word c !! l = Some inner → inner !! w = Some n →
    1 ≤ n ≤ count_of (numPosts_label c) l;
  wf_label_dom : ∀ l, is_Some (numPosts_label_word c !! l) → is_Some (numPosts_label c !! l);
  wf_vocabulary : vocabulary c = dom (numPosts_word c);
  wf_data : total_posts c = Z.of_nat (length (trainingData c))
}.

(** ** The scoring functions as the specification words them *)

Section Specification.
Context `{F : FloatOps}.

(** [ln(LabelFrequency[label] / TotalDocuments)]. *)
Definition logPrior (c : Classifier) (label : string) : double :=
  flog (fdiv (of_int (LabelFrequency c label)) (of_int (TotalDocuments c))).

(** The three-tier policy, evaluated in order. *)
Definition logLikelihood (c : Classifier) (label word : string) : double :=
  if 0 <? LabelWordFrequency c label word then
    flog (fdiv (of_int (LabelWordFrequency c label word))
               (of_int (LabelFrequency c label)))
  else if 0 <? DocFrequency c word then
    flog (fdiv (of_int (DocFrequency c word)) (of_int (TotalDocuments c)))
  else
    flog (fdiv (of_int 1) (of_int (TotalDocuments c))).

(** [logPrior(label)] plus the log-likelihood of each word, in order. *)
Definition score (c : Classifier) (words : list string) (label : string) : double :=
  fold_left (λ s w, fadd s (logLikelihood c label w)) words (logPrior c label).

(** *** The arg-max loop *)

(** One step of the loop over the labels in [predict] when the scores do
    not fault. *)
Definition argmax_step (sc : string → double) (best : string * double)
    (entry : string * Z) : string * double :=
  if fgt (sc entry.1) best.2 || (feq (sc entry.1) best.2 && String.ltb entry.1 best.1)
  then (entry.1, sc entry.1)
  else best.

(** What the arg-max loop maintains after the entries [seen]: either no
    score has exceeded the initial [lowest] and [best] is still the
    initial pair, or [best] is a seen label with its score, no seen
    label scores higher, and every seen label with an equal score is
    not smaller than it. *)
Definition argmax_inv (sc : string → double) (seen : list (string * Z))
    (best : string * double) : Prop :=
  (best = (""%string, lowest) ∧ ∀ e, e ∈ seen → fgt (sc e.1) lowest = false)
  ∨ (best.1 ∈ seen.*1 ∧ best.2 = sc best.1 ∧
     ∀ e, e ∈ seen →
          fgt (sc e.1) best.2 = false ∧
          (feq (sc e.1) best.2 = true → String.le best.1 e.1)).

(** The labels in the order in which training first saw them. *)
Fixpoint first_seen (labels : list string) : list string :=
  match labels with
  | [] => []
  | l :: rest => l :: filter (λ l', l' ≠ l) (first_seen rest)
  end.

(** The "classes:" section as it would read with the labels in insertion
    order. *)
Definition print_classes_insertion_order (c : Classifier) : list out_item :=
  [OStr "classes:"; OEndl]
  ++ flat_map (λ label, class_line c (label, LabelFrequency c label))
       (first_seen (trainingData c).*1).
End Specification.

(** ** Sample corpora *)

(** The end-to-end scenario: two labels sharing the word [great]. *)
Definition sports_politics_rows : list csv_row :=
  [post "sports" "great game"; post "politics" "great debate"].

Definition sports_politics : Classifier :=
  mkClassifier 2 {["great"; "game"; "debate"]}%string
    {["great" := 2; "game" := 1; "debate" := 1]}%string
    {["sports" := 1; "politics" := 1]}%string
    {["sports" := {["great" := 1; "game" := 1]};
      "politics" := {["great" := 1; "debate" := 1]}]}%string
    [("sports", "great game"); ("politics", "great debate")]%string.

(** Three posts labelled [x] and one labelled [y]. *)
Definition xxxy_rows : list csv_row :=
  [post "x" "a a b"; post "x" "a a b"; post "x" "c"; post "y" "a"].

Definition xxxy : Classifier :=
  mkClassifier 4 {["a"; "b"; "c"]}%string
    {["a" := 3; "b" := 2; "c" := 1]}%string
    {["x" := 3; "y" := 1]}%string
    {["x" := {["a" := 2; "b" := 2; "c" := 1]}; "y" := {["a" := 1]}]}%string
    [("x", "a a b"); ("x", "a a b"); ("x", "c"); ("y", "a")]%string.

(** Two labels first seen in descending order, with empty contents. *)
Definition b_then_a_rows : list csv_row := [post "b" ""; post "a" ""].

Definition b_then_a : Classifier :=
  mkClassifier 2 ∅ ∅ {["b" := 1; "a" := 1]}%string ∅ [("b", ""); ("a", "")]%string.

(** The end-to-end scenario with the training order swapped. *)
Definition politics_sports : Classifier :=
  mkClassifier 2 {["great"; "game"; "debate"]}%string
    {["great" := 2; "game" := 1; "debate" := 1]}%string
    {["sports" := 1; "politics" := 1]}%string
    {["sports" := {["great" := 1; "game" := 1]};
      "politics" := {["great" := 1; "debate" := 1]}]}%string
    [("politics", "great debate"); ("sports", "great game")]%string.

(** The classifier after the single post [("x", "a a b")]. *)
Definition x_aab : Classifier :=
  mkClassifier 1 {["a"; "b"]}%string {["a" := 1; "b" := 1]}%string
    {["x" := 1]}%string {["x" := {["a" := 1; "b" := 1]}]}%string
    [("x", "a a b")]%string.

(** A file system in which no file opens. *)
Definition no_files : file_system := λ _, None.

(** ** Notions for the further properties *)

(** Every character of a string satisfies [p]. *)
Fixpoint string_forall (p : ascii → bool) (s : string) : bool :=
  match s with
  | EmptyString => true
  | String ch s' => p ch && string_forall p s'
  end.

(** The pair that [train] stores for a row. *)
Definition row_pair (row : csv_row) : string * string :=
  (row_get row "tag", row_get row "content").

(** The number of rows that satisfy [P]. *)
Definition count_rows (P : csv_row → Prop) `{∀ row, Decision (P row)}
    (rows : list csv_row) : Z :=
  Z.of_nat (length (filter P rows)).

(** The label that [predict] returns for the content of a row, when it
    does not fault. *)
Definition predicted_label `{F : FloatOps} (c : Classifier) (row : csv_row)
  : option string :=
  match predict c (row_get row "content") with
  | Ok (label, _) => Some label
  | Fault _ => None
  end.

(** A file system with a training file and a test file. *)
Definition sample_files : file_system := λ name,
  if decide (name = "train.csv"%string) then Some sports_politics_rows
  else if decide (name = "test.csv"%string)
       then Some [post "politics" "great"; post "sports" "great"]
       else None.

(** * Properties *)

(** ** The order on strings *)

Lemma compare_refl (s : string) : String.compare s s = Eq.
Proof.
  pose proof (String.compare_antisym s s) as H.
  destruct (String.compare s s); simpl in H; congruence.
Qed.

Lemma ltb_le_ne (a b : string) : String.ltb a b = true ↔ String.le a b ∧ a ≠ b.
Proof.
  unfold String.le, String.ltb, String.leb.
  destruct (String.compare a b) eqn:E; simpl.
  - apply String.compare_eq_iff in E. split; [discriminate | tauto].
  - split; [|done]. intros _. split; [done|].
    intros ->. rewrite compare_refl in E. discriminate.
  - split; [discriminate | intros [[] _]].
Qed.

Lemma ltb_irrefl (a : string) : String.ltb a a = false.
Proof. unfold String.ltb. by rewrite compare_refl. Qed.

Lemma ltb_asym (a b : string) : String.ltb a b = true → String.ltb b a = false.
Proof.
  unfold String.ltb. rewrite (String.compare_antisym a b).
  destruct (String.compare b a); simpl; congruence.
Qed.

Lemma ltb_empty_r (a : string) : String.ltb a "" = false.
Proof. by destruct a. Qed.

Lemma ltb_trans (a b c : string) :
  String.ltb a b = true → String.ltb b c = true → String.ltb a c = true.
Proof.
  rewrite !ltb_le_ne. intros [Hab Nab] [Hbc Nbc]. split.
  - by trans b.
  - intros ->. apply Nab. by apply (anti_symm String.le).
Qed.

Lemma le_not_ltb (a b : string) : String.le a b ↔ String.ltb b a = false.
Proof.
  split.
  - intros Hab. destruct (String.ltb b a) eqn:E; [|done].
    apply ltb_le_ne in E as [Hba Hne]. destruct Hne. by apply (anti_symm String.le).
  - intros Hlt. destruct (total String.le a b) as [|Hba]; [done|].
    destruct (decide (a = b)) as [->|Hne]; [done|].
    assert (String.ltb b a = true) by (apply ltb_le_ne; split; [done | congruence]).
    congruence.
Qed.

(** ** Iteration over ordered containers *)

#[export] Instance key_le_trans {V : Type} : Transitive (@key_le V).
Proof. intros p q r. unfold key_le. apply transitivity. Qed.

#[export] Instance key_le_total {V : Type} : Total (@key_le V).
Proof. intros p q. unfold key_le. apply total, _. Qed.

Section Iteration.
Context {V : Type}.
Implicit Types (m : gmap string V) (s : gset string).

Lemma map_items_perm m : map_items m ≡ₚ map_to_list m.
Proof. apply merge_sort_Permutation. Qed.

Lemma elem_of_map_items m k v : (k, v) ∈ map_items m ↔ m !! k = Some v.
Proof. by rewrite map_items_perm, elem_of_map_to_list. Qed.

Lemma map_items_empty : map_items (∅ : gmap string V) = [].
Proof. apply Permutation_nil_r. by rewrite map_items_perm, map_to_list_empty. Qed.

Lemma map_items_nil m : map_items m = [] ↔ m = ∅.
Proof.
  rewrite <- map_to_list_empty_iff. split; intros H.
  - apply Permutation_nil_r. by rewrite <- map_items_perm, H.
  - apply Permutation_nil_r. by rewrite map_items_perm, H.
Qed.

Lemma map_items_NoDup_keys m : NoDup (map_items m).*1.
Proof. rewrite map_items_perm. apply NoDup_fst_map_to_list. Qed.

(** The keys are visited in strictly ascending order. *)
Lemma map_items_sorted m : StronglySorted key_lt (map_items m).
Proof.
  pose proof (map_items_NoDup_keys m) as Hnd.
  pose proof (StronglySorted_merge_sort (@key_le V) (map_to_list m)) as Hs.
  fold (map_items m) in Hs.
  induction Hs as [|p l Hs IH Hall]; [constructor|].
  simpl in Hnd. apply NoDup_cons in Hnd as [Hp Hnd].
  constructor; [by apply IH|].
  apply Forall_forall. intros q Hq.
  apply ltb_le_ne. split.
  - by apply (proj1 (Forall_forall _ _) Hall).
  - intros Heq. apply Hp. rewrite Heq. apply list_elem_of_fmap. by exists q.
Qed.

Lemma set_items_perm s : set_items s ≡ₚ elements s.
Proof. apply merge_sort_Permutation. Qed.

Lemma elem_of_set_items s w : w ∈ set_items s ↔ w ∈ s.
Proof. by rewrite set_items_perm, elem_of_elements. Qed.

Lemma set_items_NoDup s : NoDup (set_items s).
Proof. rewrite set_items_perm. apply NoDup_elements. Qed.

Lemma set_items_empty : set_items ∅ = [].
Proof. apply Permutation_nil_r. by rewrite set_items_perm, elements_empty. Qed.

Lemma list_to_set_set_items s : list_to_set (set_items s) = s.
Proof. apply set_eq. intros w. by rewrite elem_of_list_to_set, elem_of_set_items. Qed.
End Iteration.

(** ** The result monad *)

Lemma bind_Ok {A B : Type} (r : result A) (k : A → result B) (b : B) :
  r ≫= k = Ok b ↔ ∃ a, r = Ok a ∧ k a = Ok b.
Proof.
  destruct r as [a|f]; simpl.
  - split; [by exists a | by intros (a' & [= ->] & H)].
  - split; [discriminate | by intros (a' & [=] & _)].
Qed.

Lemma foldM_app {A B : Type} (f : B → A → result B) (l1 l2 : list A) (b : B) :
  foldM f (l1 ++ l2) b = foldM f l1 b ≫= foldM f l2.
Proof.
  revert b. induction l1 as [|x l1 IH]; intros b; simpl; [done|].
  destruct (f b x) as [b'|e]; simpl; [apply IH | done].
Qed.

Lemma int_incr_Ok (x y : Z) : int_incr x = Ok y ↔ x < INT_MAX ∧ y = x + 1.
Proof.
  unfold int_incr. destruct (Z.ltb_spec x INT_MAX).
  - split; [by intros [= <-] | by intros [_ ->]].
  - split; [discriminate | lia].
Qed.

Lemma map_incr_Ok (k : string) (m m' : gmap string Z) :
  map_incr k m = Ok m' ↔ count_of m k < INT_MAX ∧ m' = <[k := count_of m k + 1]> m.
Proof.
  unfold map_incr. rewrite bind_Ok. split.
  - intros (v & [Hlt ->]%int_incr_Ok & [= <-]). done.
  - intros [Hlt ->]. exists (count_of m k + 1). by rewrite int_incr_Ok.
Qed.

(** ** One training step *)

Lemma lookup_bump (ws : gset string) (m : gmap string Z) (w : string) :
  bump ws m !! w = if decide (w ∈ ws) then Some (count_of m w + 1) else m !! w.
Proof.
  unfold bump, count_of. rewrite lookup_union_with.
  destruct (decide (w ∈ ws)) as [Hin|Hin].
  - rewrite (proj2 (lookup_gset_to_gmap_Some _ _ _ _) (conj Hin eq_refl)).
    by destruct (m !! w).
  - rewrite (proj2 (lookup_gset_to_gmap_None _ _ _) Hin).
    by destruct (m !! w).
Qed.

Lemma count_of_bump (ws : gset string) (m : gmap string Z) (w : string) :
  count_of (bump ws m) w = if decide (w ∈ ws) then count_of m w + 1 else count_of m w.
Proof. unfold count_of at 1. rewrite lookup_bump. by destruct (decide (w ∈ ws)). Qed.

Lemma bump_empty (m : gmap string Z) : bump ∅ m = m.
Proof.
  apply map_eq. intros w. rewrite lookup_bump.
  destruct (decide (w ∈ (∅ : gset string))); [set_solver | done].
Qed.

Lemma bump_insert (w : string) (ws : gset string) (m : gmap string Z) :
  w ∉ ws → bump ws (<[w := count_of m w + 1]> m) = bump ({[w]} ∪ ws) m.
Proof.
  intros Hw. apply map_eq. intros x. rewrite !lookup_bump.
  destruct (decide (x = w)) as [->|Hne].
  - rewrite lookup_insert_eq.
    destruct (decide (w ∈ ws)); [done|].
    destruct (decide (w ∈ {[w]} ∪ ws)); [done | set_solver].
  - rewrite lookup_insert_ne by done. unfold count_of.
    rewrite lookup_insert_ne by done.
    destruct (decide (x ∈ ws)) as [Hx|Hx], (decide (x ∈ {[w]} ∪ ws)) as [Hx'|Hx'];
      [done | | | done]; exfalso; set_solver.
Qed.

Lemma train_word_Ok (label : string) (c c1 : Classifier) (w : string) :
  train_word label c w = Ok c1 ↔
  count_of (numPosts_word c) w < INT_MAX ∧
  count_of (default ∅ (numPosts_label_word c !! label)) w < INT_MAX ∧
  c1 = mkClassifier (total_posts c) ({[w]} ∪ vocabulary c)
         (<[w := count_of (numPosts_word c) w + 1]> (numPosts_word c))
         (numPosts_label c)
         (<[label := <[w := count_of (default ∅ (numPosts_label_word c !! label)) w + 1]>
                       (default ∅ (numPosts_label_word c !! label))]>
            (numPosts_label_word c))
         (trainingData c).
Proof.
  unfold train_word. rewrite bind_Ok. split.
  - intros (npw & [H1 ->]%map_incr_Ok & (inner & [H2 ->]%map_incr_Ok & [= <-])%bind_Ok).
    done.
  - intros (H1 & H2 & ->). eexists. split; [by apply map_incr_Ok|].
    apply bind_Ok. eexists. split; [by apply map_incr_Ok | done].
Qed.

(** The loop over the words of one document. *)
Lemma train_words_Ok (label : string) (ws : list string) (c c' : Classifier) :
  NoDup ws →
  foldM (train_word label) ws c = Ok c' →
  c' = mkClassifier (total_posts c) (list_to_set ws ∪ vocabulary c)
         (bump (list_to_set ws) (numPosts_word c))
         (numPosts_label c)
         (if decide (ws = []) then numPosts_label_word c
          else <[label := bump (list_to_set ws)
                            (default ∅ (numPosts_label_word c !! label))]>
                 (numPosts_label_word c))
         (trainingData c).
Proof.
  revert c. induction ws as [|w ws IH]; intros c Hnd H.
  - simpl in H. injection H as <-. destruct c; simpl.
    by rewrite bump_empty, (left_id_L ∅ (∪)).
  - apply NoDup_cons in Hnd as [Hw Hnd]. simpl in H.
    apply bind_Ok in H as (c1 & (_ & _ & ->)%train_word_Ok & H).
    apply IH in H; [|done]. simpl in H. subst c'.
    assert (w ∉ (list_to_set ws : gset string)) as Hw'
      by (by rewrite elem_of_list_to_set).
    rewrite (decide_False (P := w :: ws = [])) by done. simpl. f_equal.
    + set_solver.
    + by apply bump_insert.
    + rewrite lookup_insert_eq. simpl.
      destruct (decide (ws = [])) as [->|Hne].
      * simpl. rewrite <- (bump_insert w ∅) by set_solver. by rewrite bump_empty.
      * by rewrite insert_insert_eq, bump_insert.
Qed.

Lemma unique_words_nil_iff (content : string) :
  set_items (unique_words content) = [] ↔ unique_words content = ∅.
Proof.
  split; intros H.
  - rewrite <- (list_to_set_set_items (unique_words content)), H. done.
  - rewrite H. apply set_items_empty.
Qed.

(** A successful [train_row] computes [ingest]. *)
Lemma train_row_ingest (c c' : Classifier) (row : csv_row) :
  train_row c row = Ok c' →
  c' = ingest c (row_get row "tag") (row_get row "content").
Proof.
  unfold train_row. intros H.
  apply bind_Ok in H as (tp & [_ ->]%int_incr_Ok & H).
  apply bind_Ok in H as (npl & [_ ->]%map_incr_Ok & H).
  apply train_words_Ok in H; [|apply set_items_NoDup].
  simpl in H. rewrite list_to_set_set_items in H. subst c'. unfold ingest.
  f_equal.
  destruct (decide (set_items _ = [])) as [E|E], (decide (unique_words _ = ∅)) as [E'|E'];
    [done | | | done].
  - by apply unique_words_nil_iff in E.
  - by apply unique_words_nil_iff in E'.
Qed.

(** What [ingest] does to the counts the specification names. *)
Lemma ingest_TotalDocuments (c : Classifier) (label content : string) :
  TotalDocuments (ingest c label content) = TotalDocuments c + 1.
Proof. done. Qed.

Lemma ingest_Vocabulary (c : Classifier) (label content : string) :
  Vocabulary (ingest c label content) = unique_words content ∪ Vocabulary c.
Proof. done. Qed.

Lemma ingest_LabelFrequency (c : Classifier) (label content l : string) :
  LabelFrequency (ingest c label content) l =
  LabelFrequency c l + (if decide (l = label) then 1 else 0).
Proof.
  unfold LabelFrequency, count_of; simpl.
  destruct (decide (l = label)) as [->|Hne].
  - by rewrite lookup_insert_eq.
  - rewrite lookup_insert_ne by done. lia.
Qed.

Lemma ingest_DocFrequency (c : Classifier) (label content w : string) :
  DocFrequency (ingest c label content) w =
  DocFrequency c w + (if decide (w ∈ unique_words content) then 1 else 0).
Proof.
  unfold DocFrequency; simpl. rewrite count_of_bump.
  destruct (decide (w ∈ unique_words content)); lia.
Qed.

Lemma ingest_inner (c : Classifier) (label content l : string) :
  default ∅ (numPosts_label_word (ingest c label content) !! l) =
  if decide (l = label)
  then bump (unique_words content) (default ∅ (numPosts_label_word c !! l))
  else default ∅ (numPosts_label_word c !! l).
Proof.
  simpl. destruct (decide (unique_words content = ∅)) as [E|E].
  - rewrite E, bump_empty. by destruct (decide (l = label)).
  - destruct (decide (l = label)) as [->|Hne].
    + by rewrite lookup_insert_eq.
    + by rewrite lookup_insert_ne.
Qed.

Lemma ingest_LabelWordFrequency (c : Classifier) (label content l w : string) :
  LabelWordFrequency (ingest c label content) l w =
  LabelWordFrequency c l w +
  (if decide (l = label ∧ w ∈ unique_words content) then 1 else 0).
Proof.
  unfold LabelWordFrequency. rewrite ingest_inner.
  destruct (decide (l = label)) as [->|Hne].
  - rewrite count_of_bump.
    destruct (decide (w ∈ unique_words content)) as [Hw|Hw].
    + by rewrite decide_True.
    + rewrite decide_False by tauto. lia.
  - rewrite decide_False by tauto. lia.
Qed.

(** ** Sums over a table *)

Section SumOver.
Context {V : Type} (f : V → Z).
Implicit Types m : gmap string V.

Lemma sum_over_empty : sum_over f (∅ : gmap string V) = 0.
Proof. apply map_fold_empty. Qed.

Lemma sum_over_insert_fresh m k v :
  m !! k = None → sum_over f (<[k := v]> m) = sum_over f m + f v.
Proof.
  intros Hk. unfold sum_over.
  rewrite map_fold_insert_L; [lia | intros; lia | done].
Qed.

Lemma sum_over_insert m k v :
  sum_over f (<[k := v]> m) = sum_over f m - from_option f 0 (m !! k) + f v.
Proof.
  destruct (m !! k) as [x|] eqn:Hk; simpl.
  - rewrite <- (insert_delete_id m k x) at 2 by done.
    rewrite <- (insert_delete_eq m k v).
    rewrite !sum_over_insert_fresh by apply lookup_delete_eq. lia.
  - rewrite sum_over_insert_fresh by done. lia.
Qed.
End SumOver.

(** ** Invariants of training *)

Lemma consistent_empty : consistent empty_classifier.
Proof.
  split.
  - unfold TotalDocuments; simpl. by rewrite sum_over_empty.
  - intros w. unfold DocFrequency; simpl. by rewrite sum_over_empty.
Qed.

Lemma consistent_ingest (c : Classifier) (label content : string) :
  consistent c → consistent (ingest c label content).
Proof.
  intros [Ht Hd]. split.
  - rewrite ingest_TotalDocuments, Ht. simpl.
    rewrite sum_over_insert. unfold count_of.
    destruct (numPosts_label c !! label); simpl; unfold id; lia.
  - intros w. rewrite ingest_DocFrequency, Hd. simpl.
    destruct (decide (unique_words content = ∅)) as [E|E].
    + rewrite E. rewrite decide_False by set_solver. lia.
    + rewrite sum_over_insert, count_of_bump.
      assert (from_option (λ inner, count_of inner w) 0 (numPosts_label_word c !! label)
              = count_of (default ∅ (numPosts_label_word c !! label)) w) as ->
        by (by destruct (numPosts_label_word c !! label)).
      destruct (decide (w ∈ unique_words content)); lia.
Qed.

Lemma well_formed_empty : well_formed empty_classifier.
Proof.
  split; simpl; try (intros; simplify_map_eq; fail).
  - unfold INT_MAX. lia.
  - intros l [x Hx]. simplify_map_eq.
  - by rewrite dom_empty_L.
  - done.
Qed.

Lemma well_formed_ingest (c : Classifier) (label content : string) :
  well_formed c → total_posts c < INT_MAX → well_formed (ingest c label content).
Proof.
  intros [Ht Hl Hw Hlw Hdom Hvoc Hdata] Hmax.
  assert (∀ l, 0 ≤ count_of (numPosts_label c) l ≤ total_posts c) as Hl'.
  { intros l. unfold count_of. destruct (numPosts_label c !! l) as [n|] eqn:E; simpl;
      [apply Hl in E|]; lia. }
  assert (∀ w, 0 ≤ count_of (numPosts_word c) w ≤ total_posts c) as Hw'.
  { intros w. unfold count_of. destruct (numPosts_word c !! w) as [n|] eqn:E; simpl;
      [apply Hw in E|]; lia. }
  assert (∀ l w, 0 ≤ count_of (default ∅ (numPosts_label_word c !! l)) w
                 ≤ count_of (numPosts_label c) l) as Hlw'.
  { intros l w. destruct (numPosts_label_word c !! l) as [inner|] eqn:E; simpl.
    - destruct (inner !! w) as [n|] eqn:E'.
      + pose proof (Hlw _ _ _ _ E E').
        assert (count_of inner w = n) as -> by (unfold count_of; by rewrite E').
        lia.
      + assert (count_of inner w = 0) as -> by (unfold count_of; by rewrite E').
        specialize (Hl' l). lia.
    - assert (count_of ∅ w = 0) as -> by done. specialize (Hl' l). lia. }
  split; simpl.
  - lia.
  - intros l n. destruct (decide (l = label)) as [->|Hne].
    + rewrite lookup_insert_eq. intros [= <-]. specialize (Hl' label). lia.
    + rewrite lookup_insert_ne by done. intros E%Hl. lia.
  - intros w n. rewrite lookup_bump.
    destruct (decide (w ∈ unique_words content)).
    + intros [= <-]. specialize (Hw' w). lia.
    + intros E%Hw. lia.
  - intros l inner w n Hin Hn.
    pose proof (ingest_inner c label content l) as Hi. simpl in Hi.
    rewrite Hin in Hi. simpl in Hi. subst inner.
    pose proof (ingest_LabelFrequency c label content l) as HL.
    unfold LabelFrequency in HL; simpl in HL. rewrite HL. clear HL.
    destruct (decide (l = label)) as [->|Hne].
    + rewrite lookup_bump in Hn. specialize (Hlw' label w).
      destruct (decide (w ∈ unique_words content)).
      * injection Hn as <-. lia.
      * assert (count_of (default ∅ (numPosts_label_word c !! label)) w = n)
          by (unfold count_of; by rewrite Hn).
        destruct (numPosts_label_word c !! label) as [inner|] eqn:E; simpl in Hn.
        -- pose proof (Hlw _ _ _ _ E Hn). lia.
        -- by rewrite lookup_empty in Hn.
    + destruct (numPosts_label_word c !! l) as [inner|] eqn:E; simpl in Hn.
      * pose proof (Hlw _ _ _ _ E Hn). lia.
      * by rewrite lookup_empty in Hn.
  - intros l. destruct (decide (l = label)) as [->|Hne].
    + intros _. by rewrite lookup_insert_eq.
    + rewrite lookup_insert_ne by done. intros H. apply Hdom.
      destruct (decide (unique_words content = ∅)); [done|].
      by rewrite lookup_insert_ne in H.
  - rewrite Hvoc. apply set_eq. intros w.
    rewrite elem_of_union, !elem_of_dom, lookup_bump.
    destruct (decide (w ∈ unique_words content)); [|tauto].
    split; [by eauto | tauto].
  - rewrite length_app. simpl. lia.
Qed.

(** ** Training succeeds below [INT_MAX] posts *)

Lemma train_row_lt (c c' : Classifier) (row : csv_row) :
  train_row c row = Ok c' → total_posts c < INT_MAX.
Proof.
  unfold train_row. intros H.
  by apply bind_Ok in H as (tp & [Hlt _]%int_incr_Ok & _).
Qed.

Lemma train_words_total (label : string) (ws : list string) (c : Classifier) :
  NoDup ws →
  (∀ w, w ∈ ws →
        count_of (numPosts_word c) w < INT_MAX ∧
        count_of (default ∅ (numPosts_label_word c !! label)) w < INT_MAX) →
  ∃ c', foldM (train_word label) ws c = Ok c'.
Proof.
  revert c. induction ws as [|w ws IH]; intros c Hnd Hlt; simpl.
  - by exists c.
  - apply NoDup_cons in Hnd as [Hw Hnd].
    destruct (Hlt w) as [H1 H2]; [left|].
    pose proof (proj2 (train_word_Ok label c _ w) (conj H1 (conj H2 eq_refl))) as Hstep.
    rewrite Hstep. simpl. apply IH; [done|]. simpl.
    intros w' Hw'. assert (w ≠ w') by (by intros ->).
    rewrite lookup_insert_eq. simpl. unfold count_of.
    rewrite !lookup_insert_ne by done. apply Hlt. by right.
Qed.

Lemma train_row_Ok (c : Classifier) (row : csv_row) :
  well_formed c → total_posts c < INT_MAX →
  train_row c row = Ok (ingest c (row_get row "tag") (row_get row "content")).
Proof.
  intros Hwf Hmax.
  assert (∃ c', train_row c row = Ok c') as [c' H].
  { unfold train_row.
    rewrite (proj2 (int_incr_Ok (total_posts c) _) (conj Hmax eq_refl)). simpl.
    assert (count_of (numPosts_label c) (row_get row "tag") < INT_MAX) as Hl.
    { unfold count_of. destruct (numPosts_label c !! _) as [n|] eqn:E; simpl.
      - apply (wf_label c Hwf) in E. lia.
      - unfold INT_MAX. lia. }
    rewrite (proj2 (map_incr_Ok _ (numPosts_label c) _) (conj Hl eq_refl)). simpl.
    apply train_words_total; [apply set_items_NoDup|]. simpl.
    intros w _. split.
    - unfold count_of. destruct (numPosts_word c !! w) as [n|] eqn:E; simpl.
      + apply (wf_word c Hwf) in E. lia.
      + unfold INT_MAX. lia.
    - unfold count_of.
      destruct (numPosts_label_word c !! _) as [inner|] eqn:E; simpl.
      + destruct (inner !! w) as [n|] eqn:E'; simpl.
        * pose proof (wf_label_word c Hwf _ _ _ _ E E') as Hn.
          destruct (wf_label_dom c Hwf (row_get row "tag")) as [k Hk]; [by eexists|].
          unfold count_of in Hn. rewrite Hk in Hn. simpl in Hn.
          apply (wf_label c Hwf) in Hk. lia.
        * unfold INT_MAX. lia.
      + rewrite lookup_empty. simpl. unfold INT_MAX. lia. }
  rewrite H. f_equal. by apply train_row_ingest.
Qed.

(** At [INT_MAX] posts the next [total_posts++] overflows. *)
Lemma train_row_overflow (c : Classifier) (row : csv_row) :
  INT_MAX ≤ total_posts c → train_row c row = Fault SignedOverflow.
Proof.
  intros H. unfold train_row, int_incr.
  destruct (Z.ltb_spec (total_posts c) INT_MAX); [lia | done].
Qed.

(** Induction over the reading loop. *)
Lemma train_rows_ind (P : Classifier → Prop) (rows : list csv_row) (c0 c : Classifier) :
  P c0 →
  (∀ c1 row c2, P c1 → train_row c1 row = Ok c2 → P c2) →
  train_rows rows c0 = Ok c → P c.
Proof.
  intros H0 Hstep. unfold train_rows. revert c0 H0.
  induction rows as [|row rows IH]; intros c0 H0 H; simpl in H.
  - by injection H as <-.
  - apply bind_Ok in H as (c1 & H1 & H). eapply IH; [|done]. by eapply Hstep.
Qed.

Lemma train_rows_snoc (rows : list csv_row) (row : csv_row) (c : Classifier) :
  train_rows (rows ++ [row]) c = train_rows rows c ≫= λ c', train_row c' row.
Proof.
  unfold train_rows. rewrite foldM_app. destruct (foldM train_row rows c); simpl; [|done].
  by destruct (train_row a row).
Qed.

Lemma well_formed_train_row (c c' : Classifier) (row : csv_row) :
  well_formed c → train_row c row = Ok c' → well_formed c'.
Proof.
  intros Hwf H. rewrite (train_row_ingest _ _ _ H).
  apply well_formed_ingest; [done|]. by eapply train_row_lt.
Qed.

Lemma consistent_train_row (c c' : Classifier) (row : csv_row) :
  consistent c → train_row c row = Ok c' → consistent c'.
Proof.
  intros Hc H. rewrite (train_row_ingest _ _ _ H). by apply consistent_ingest.
Qed.

Lemma trained_well_formed (c : Classifier) : trained c → well_formed c.
Proof.
  intros [rows H]. eapply train_rows_ind; [apply well_formed_empty | | exact H].
  intros. by eapply well_formed_train_row.
Qed.

Lemma trained_step (c c' : Classifier) (row : csv_row) :
  trained c → train_row c row = Ok c' → trained c'.
Proof.
  intros [rows H] Hstep. exists (rows ++ [row]).
  by rewrite train_rows_snoc, H.
Qed.

(** Training on a sequence of rows succeeds exactly when the number of
    posts stays representable. *)
Lemma train_rows_total (rows : list csv_row) (c : Classifier) :
  well_formed c →
  total_posts c + Z.of_nat (length rows) ≤ INT_MAX →
  ∃ c', train_rows rows c = Ok c'.
Proof.
  unfold train_rows. revert c. induction rows as [|row rows IH]; intros c Hwf Hlen.
  - by exists c.
  - simpl in *. rewrite train_row_Ok by (done || lia). simpl.
    apply IH.
    + apply well_formed_ingest; [done | lia].
    + simpl. lia.
Qed.

Lemma train_total (rows : list csv_row) :
  Z.of_nat (length rows) ≤ INT_MAX →
  ∃ c, train_rows rows empty_classifier = Ok c.
Proof. intros H. apply train_rows_total; [apply well_formed_empty | simpl; lia]. Qed.

(** ** The log-likelihood *)

Section LogLikelihood.
Context `{F : FloatOps}.

(** The count that [calculate_log_likelihood] reads with two [find]s. *)
Lemma find_count (c : Classifier) (label word : string) :
  match numPosts_label_word c !! label with
  | Some inner => match inner !! word with Some n => n | None => 0 end
  | None => 0
  end = LabelWordFrequency c label word.
Proof.
  unfold LabelWordFrequency, count_of.
  destruct (numPosts_label_word c !! label) as [inner|]; simpl; [|done].
  by destruct (inner !! word).
Qed.

Lemma find_global (c : Classifier) (word : string) :
  match numPosts_word c !! word with Some g => g | None => 0 end = DocFrequency c word.
Proof. unfold DocFrequency, count_of. by destruct (numPosts_word c !! word). Qed.

Lemma calculate_log_likelihood_wf (c : Classifier) (label word : string) :
  well_formed c →
  calculate_log_likelihood c label word = Ok (logLikelihood c label word).
Proof.
  intros Hwf. unfold calculate_log_likelihood, logLikelihood.
  rewrite find_count, find_global.
  destruct (Z.ltb_spec 0 (LabelWordFrequency c label word)) as [Hpos|Hle];
    [|by destruct (0 <? DocFrequency c word)].
  unfold map_at, LabelFrequency, count_of.
  destruct (numPosts_label c !! label) as [n|] eqn:E; [done|].
  exfalso. unfold LabelWordFrequency, count_of in Hpos.
  destruct (numPosts_label_word c !! label) as [inner|] eqn:E'; simpl in Hpos.
  - destruct (wf_label_dom c Hwf label) as [n Hn]; [by eexists | congruence].
  - rewrite lookup_empty in Hpos. simpl in Hpos. lia.
Qed.

(** C1. For every trained classifier, label and word,
    [calculate_log_likelihood] returns the value of the three-tier policy
    evaluated in order: with [c = LabelWordFrequency[label][word] > 0] it
    is [ln(c / LabelFrequency[label])]; otherwise with
    [g = DocFrequency[word] > 0] it is [ln(g / TotalDocuments)]; otherwise
    it is [ln(1 / TotalDocuments)]. *)
Theorem log_likelihood_three_tier (c : Classifier) (label word : string) :
  trained c →
  calculate_log_likelihood c label word =
  Ok (if 0 <? LabelWordFrequency c label word then
        flog (fdiv (of_int (LabelWordFrequency c label word))
                   (of_int (LabelFrequency c label)))
      else if 0 <? DocFrequency c word then
        flog (fdiv (of_int (DocFrequency c word)) (of_int (TotalDocuments c)))
      else
        flog (fdiv (of_int 1) (of_int (TotalDocuments c)))).
Proof.
  intros Ht. apply trained_well_formed in Ht.
  by rewrite calculate_log_likelihood_wf.
Qed.
End LogLikelihood.

(** ** Prediction *)

Section Predict.
Context `{F : FloatOps}.

Lemma label_score_wf (c : Classifier) (ws : list string) (l : string) (n : Z) :
  well_formed c → numPosts_label c !! l = Some n →
  label_score c ws l n = Ok (score c ws l).
Proof.
  intros Hwf Hn. unfold label_score, score, logPrior, log_prior_of.
  assert (LabelFrequency c l = n) as ->
    by (unfold LabelFrequency, count_of; by rewrite Hn).
  unfold TotalDocuments. generalize (flog (fdiv (of_int n) (of_int (total_posts c)))).
  induction ws as [|w ws IH]; intros s0; simpl; [done|].
  rewrite calculate_log_likelihood_wf by done. simpl. apply IH.
Qed.

Lemma predict_step_wf (c : Classifier) (ws : list string) (best : string * double)
    (e : string * Z) :
  well_formed c → numPosts_label c !! e.1 = Some e.2 →
  predict_step c ws best e = Ok (argmax_step (score c ws) best e).
Proof.
  intros Hwf He. unfold predict_step, argmax_step.
  rewrite (label_score_wf c ws e.1 e.2) by done. simpl.
  by destruct (fgt _ _ || _).
Qed.

Lemma predict_loop_wf (c : Classifier) (ws : list string) (es : list (string * Z))
    (best : string * double) :
  well_formed c → (∀ e, e ∈ es → numPosts_label c !! e.1 = Some e.2) →
  foldM (predict_step c ws) es best = Ok (fold_left (argmax_step (score c ws)) es best).
Proof.
  intros Hwf. revert best. induction es as [|e es IH]; intros best Hes; simpl; [done|].
  rewrite predict_step_wf; [|done|apply Hes; left]. simpl.
  apply IH. intros e' He'. apply Hes. by right.
Qed.

(** On a trained classifier [predict] does not fault: it is the arg-max
    loop over the labels in ascending order. *)
Lemma predict_wf (c : Classifier) (content : string) :
  well_formed c →
  predict c content =
  Ok (fold_left (argmax_step (score c (set_items (unique_words content))))
        (map_items (numPosts_label c)) (""%string, lowest)).
Proof.
  intros Hwf. unfold predict. apply predict_loop_wf; [done|].
  intros [l n] He. by apply elem_of_map_items.
Qed.

Context `{L : !FloatLaws F}.

Lemma argmax_inv_step (sc : string → double) (seen : list (string * Z))
    (best : string * double) (e : string * Z) :
  (∀ x, x ∈ seen → String.ltb x.1 e.1 = true) →
  argmax_inv sc seen best →
  argmax_inv sc (seen ++ [e]) (argmax_step sc best e).
Proof.
  intros Hlt Hinv. unfold argmax_step.
  destruct Hinv as [[-> Hlow] | (Hin & Hsc & Hmax)]; simpl.
  - rewrite ltb_empty_r, andb_false_r, orb_false_r.
    destruct (fgt (sc e.1) lowest) eqn:Hgt.
    + right. simpl. split; [|split; [done|]].
      * rewrite fmap_app. apply elem_of_app. right. by left.
      * intros x [Hx | ->%list_elem_of_singleton]%elem_of_app.
        -- specialize (Hlow x Hx). split.
           ++ destruct (fgt (sc x.1) (sc e.1)) eqn:Hx'; [|done].
              by rewrite (fgt_trans _ _ _ Hx' Hgt) in Hlow.
           ++ intros Heq. by rewrite (feq_fgt _ _ _ Heq Hgt) in Hlow.
        -- split; [apply fgt_irrefl | done].
    + left. split; [done|].
      intros x [Hx | ->%list_elem_of_singleton]%elem_of_app; [by apply Hlow | done].
  - assert (String.ltb best.1 e.1 = true) as Hbe.
    { apply list_elem_of_fmap in Hin as (x & -> & Hx). by apply Hlt. }
    rewrite (ltb_asym _ _ Hbe), andb_false_r, orb_false_r.
    destruct (fgt (sc e.1) best.2) eqn:Hgt.
    + right. simpl. split; [|split; [done|]].
      * rewrite fmap_app. apply elem_of_app. right. by left.
      * intros x [Hx | ->%list_elem_of_singleton]%elem_of_app.
        -- destruct (Hmax x Hx) as [Hx1 Hx2]. split.
           ++ destruct (fgt (sc x.1) (sc e.1)) eqn:Hx'; [|done].
              by rewrite (fgt_trans _ _ _ Hx' Hgt) in Hx1.
           ++ intros Heq. by rewrite (feq_fgt _ _ _ Heq Hgt) in Hx1.
        -- split; [apply fgt_irrefl | done].
    + right. split; [|split; [done|]].
      * rewrite fmap_app. apply elem_of_app. by left.
      * intros x [Hx | ->%list_elem_of_singleton]%elem_of_app; [by apply Hmax|].
        split; [done|]. intros _. by apply ltb_le_ne in Hbe as [Hle _].
Qed.

Lemma argmax_inv_loop (sc : string → double) (rest seen : list (string * Z))
    (best : string * double) :
  StronglySorted key_lt (seen ++ rest) →
  argmax_inv sc seen best →
  argmax_inv sc (seen ++ rest) (fold_left (argmax_step sc) rest best).
Proof.
  revert seen best. induction rest as [|e rest IH]; intros seen best Hs Hinv; simpl.
  - by rewrite app_nil_r.
  - replace (seen ++ e :: rest) with ((seen ++ [e]) ++ rest) in *
      by (by rewrite <- app_assoc).
    apply IH; [done|]. apply argmax_inv_step; [|done].
    intros x Hx. apply StronglySorted_app_1_l in Hs.
    change (key_lt x e).
    eapply (StronglySorted_app_1_elem_of _ seen [e]); [done | done | by left].
Qed.
End Predict.

(** ** Training order *)

Lemma bump_comm (a b : gset string) (m : gmap string Z) :
  bump a (bump b m) = bump b (bump a m).
Proof.
  apply map_eq. intros w. rewrite !lookup_bump, !count_of_bump.
  by destruct (decide (w ∈ a)), (decide (w ∈ b)).
Qed.

Lemma lookup_ingest_label_word (c : Classifier) (label content l : string) :
  numPosts_label_word (ingest c label content) !! l =
  if decide (l = label ∧ unique_words content ≠ ∅)
  then Some (bump (unique_words content) (default ∅ (numPosts_label_word c !! l)))
  else numPosts_label_word c !! l.
Proof.
  simpl. destruct (decide (unique_words content = ∅)) as [E|E].
  - by rewrite decide_False by tauto.
  - destruct (decide (l = label)) as [->|Hne].
    + by rewrite decide_True, lookup_insert_eq.
    + rewrite decide_False by tauto. by rewrite lookup_insert_ne.
Qed.

Lemma lookup_ingest_label (c : Classifier) (label content l : string) :
  numPosts_label (ingest c label content) !! l =
  if decide (l = label) then Some (count_of (numPosts_label c) l + 1)
  else numPosts_label c !! l.
Proof.
  simpl. destruct (decide (l = label)) as [->|Hne].
  - by rewrite lookup_insert_eq.
  - by rewrite lookup_insert_ne.
Qed.

#[export] Instance same_tables_equiv : Equivalence same_tables.
Proof.
  split.
  - by intros c.
  - intros c c' (? & ? & ? & ? & ?). by repeat split.
  - intros c1 c2 c3 (? & ? & ? & ? & ?) (? & ? & ? & ? & ?).
    repeat split; congruence.
Qed.

Lemma ingest_same_tables (c c' : Classifier) (label content : string) :
  same_tables c c' → same_tables (ingest c label content) (ingest c' label content).
Proof.
  intros (Ht & Hv & Hw & Hl & Hlw). unfold ingest, same_tables; simpl.
  by rewrite Ht, Hv, Hw, Hl, Hlw.
Qed.

Lemma ingest_comm (c : Classifier) (l1 c1 l2 c2 : string) :
  same_tables (ingest (ingest c l1 c1) l2 c2) (ingest (ingest c l2 c2) l1 c1).
Proof.
  split; [|split; [|split; [|split]]].
  - simpl. lia.
  - simpl. set_solver.
  - simpl. apply bump_comm.
  - apply map_eq. intros l. rewrite !lookup_ingest_label.
    unfold count_of. rewrite !lookup_ingest_label.
    by destruct (decide (l = l1)), (decide (l = l2)).
  - apply map_eq. intros l. rewrite !lookup_ingest_label_word.
    destruct (decide (l = l1 ∧ _)), (decide (l = l2 ∧ _)); try done.
    simpl. f_equal. apply bump_comm.
Qed.

Lemma ingest_all_same_tables (rows : list csv_row) (c c' : Classifier) :
  same_tables c c' → same_tables (ingest_all rows c) (ingest_all rows c').
Proof.
  revert c c'. induction rows as [|row rows IH]; intros c c' H; simpl; [done|].
  by apply IH, ingest_same_tables.
Qed.

Lemma ingest_all_perm (rows rows' : list csv_row) (c : Classifier) :
  rows ≡ₚ rows' → same_tables (ingest_all rows c) (ingest_all rows' c).
Proof.
  intros Hp. revert c. induction Hp as [|row rows rows' _ IH|r1 r2 rows|? ? ? _ IH1 _ IH2];
    intros c; simpl.
  - done.
  - apply IH.
  - apply ingest_all_same_tables, ingest_comm.
  - by trans (ingest_all l' c).
Qed.

Lemma train_rows_ingest_all (rows : list csv_row) (c c' : Classifier) :
  train_rows rows c = Ok c' → c' = ingest_all rows c.
Proof.
  unfold train_rows. revert c. induction rows as [|row rows IH]; intros c H; simpl in *.
  - by injection H as <-.
  - apply bind_Ok in H as (c1 & H1 & H). apply train_row_ingest in H1 as ->.
    by apply IH.
Qed.

(** Training the same posts in another order yields the same counts. *)
Lemma train_rows_perm (rows rows' : list csv_row) (c c' : Classifier) :
  rows ≡ₚ rows' →
  train_rows rows empty_classifier = Ok c →
  train_rows rows' empty_classifier = Ok c' →
  same_tables c c'.
Proof.
  intros Hp ->%train_rows_ingest_all ->%train_rows_ingest_all.
  by apply ingest_all_perm.
Qed.

(** [predict] reads the counts only. *)
Lemma predict_same_tables `{F : FloatOps} (c c' : Classifier) (content : string) :
  same_tables c c' → predict c content = predict c' content.
Proof.
  destruct c, c'. intros (Ht & Hv & Hw & Hl & Hlw). simpl in *. subst. reflexivity.
Qed.

(** ** The sample corpora *)

Lemma train_sports_politics :
  train_rows sports_politics_rows empty_classifier = Ok sports_politics.
Proof. by vm_compute. Qed.

Lemma train_xxxy : train_rows xxxy_rows empty_classifier = Ok xxxy.
Proof. by vm_compute. Qed.

Lemma train_b_then_a : train_rows b_then_a_rows empty_classifier = Ok b_then_a.
Proof. by vm_compute. Qed.

Lemma well_formed_sports_politics : well_formed sports_politics.
Proof. apply trained_well_formed. eexists. apply train_sports_politics. Qed.

Section PredictArgmax.
Context `{F : FloatOps} `{L : !FloatLaws F}.

(** The first label, in ascending order, among those with the highest
    score is returned, as soon as some label scores above the initial
    [lowest]. *)
Lemma predict_best (c : Classifier) (content : string) :
  well_formed c →
  let ws := set_items (unique_words content) in
  (∃ l, is_Some (numPosts_label c !! l) ∧ fgt (score c ws l) lowest = true) →
  ∃ best,
    predict c content = Ok (best, score c ws best) ∧
    is_Some (numPosts_label c !! best) ∧
    ∀ l, is_Some (numPosts_label c !! l) →
         fgt (score c ws l) (score c ws best) = false ∧
         (feq (score c ws l) (score c ws best) = true → String.le best l).
Proof.
  intros Hwf ws (l0 & [n0 Hl0] & Hgt0).
  rewrite predict_wf by done. fold ws.
  pose proof (argmax_inv_loop (score c ws) (map_items (numPosts_label c)) []
                (""%string, lowest)) as Hinv.
  simpl in Hinv. specialize (Hinv (map_items_sorted _)).
  destruct Hinv as [[_ Hlow] | (Hin & Hsc & Hmax)].
  - left. split; [done|]. intros e He. inversion He.
  - specialize (Hlow (l0, n0)). simpl in Hlow.
    rewrite Hlow in Hgt0; [done|]. by apply elem_of_map_items.
  - destruct (fold_left _ _ _) as [best s]. simpl in *. subst s.
    exists best. split; [done|]. split.
    + apply list_elem_of_fmap in Hin as ([b n] & -> & Hb).
      apply elem_of_map_items in Hb. by eexists.
    + intros l [n Hl]. apply (Hmax (l, n)). by apply elem_of_map_items.
Qed.

End PredictArgmax.

(** ** Training: the claims *)

(** C3. After training on any sequence of rows, [TotalDocuments] is the
    sum of [LabelFrequency] over the labels and, for every word [w],
    [DocFrequency[w]] is the sum over the labels [L] of
    [LabelWordFrequency[L][w]]; ingesting one document preserves both
    equalities. *)
Theorem count_consistency :
  (∀ (rows : list csv_row) (c : Classifier),
      train_rows rows empty_classifier = Ok c →
      TotalDocuments c = sum_over id (numPosts_label c) ∧
      ∀ w : string,
        DocFrequency c w =
        sum_over (λ inner, count_of inner w) (numPosts_label_word c))
  ∧ (∀ (c c' : Classifier) (row : csv_row),
        TotalDocuments c = sum_over id (numPosts_label c) →
        (∀ w : string,
            DocFrequency c w =
            sum_over (λ inner, count_of inner w) (numPosts_label_word c)) →
        train_row c row = Ok c' →
        TotalDocuments c' = sum_over id (numPosts_label c') ∧
        ∀ w : string,
          DocFrequency c' w =
          sum_over (λ inner, count_of inner w) (numPosts_label_word c')).
Proof.
  split.
  - intros rows c H.
    assert (consistent c) as [? ?]; [|done].
    eapply train_rows_ind; [apply consistent_empty | | exact H].
    intros. by eapply consistent_train_row.
  - intros c c' row Ht Hd H.
    assert (consistent c') as [? ?]; [|done].
    by eapply consistent_train_row.
Qed.

(** The word set of a content holds exactly the words read from it. *)
Lemma elem_of_unique_words (content w : string) :
  w ∈ unique_words content ↔ w ∈ extract_words "" content.
Proof. unfold unique_words. by rewrite elem_of_list_to_set. Qed.

(** C5. Ingesting one document adds exactly one to
    [LabelWordFrequency[label][w]] and to [DocFrequency[w]] for every word
    [w] read from its content, however many times it is read, puts [w] in
    the vocabulary, and leaves the counts of all other words and of all
    other labels as they were. *)
Theorem ingest_counts_each_word_once (c c' : Classifier) (row : csv_row) :
  train_row c row = Ok c' →
  ∀ w : string,
    (w ∈ extract_words "" (row_get row "content") →
     LabelWordFrequency c' (row_get row "tag") w =
       LabelWordFrequency c (row_get row "tag") w + 1 ∧
     DocFrequency c' w = DocFrequency c w + 1 ∧
     w ∈ Vocabulary c') ∧
    (w ∉ extract_words "" (row_get row "content") →
     LabelWordFrequency c' (row_get row "tag") w =
       LabelWordFrequency c (row_get row "tag") w ∧
     DocFrequency c' w = DocFrequency c w ∧
     (w ∈ Vocabulary c' ↔ w ∈ Vocabulary c)) ∧
    (∀ l : string, l ≠ row_get row "tag" →
     LabelWordFrequency c' l w = LabelWordFrequency c l w).
Proof.
  intros H w. rewrite (train_row_ingest _ _ _ H).
  rewrite ingest_DocFrequency, ingest_Vocabulary, <- elem_of_unique_words.
  split; [|split].
  - intros Hw. rewrite ingest_LabelWordFrequency.
    rewrite !decide_True by done. split; [done|]. split; [done|].
    apply elem_of_union. by left.
  - intros Hw. rewrite ingest_LabelWordFrequency.
    rewrite !decide_False by tauto. split; [lia|]. split; [lia|].
    rewrite elem_of_union. tauto.
  - intros l Hl. rewrite ingest_LabelWordFrequency.
    rewrite decide_False by tauto. lia.
Qed.

(** Training twice on ["a a b"] under one label: each call adds one for
    ["a"] and one for ["b"]. *)
Example ingest_a_a_b_twice (c c1 c2 : Classifier) (label : string) :
  train_row c (post label "a a b") = Ok c1 →
  train_row c1 (post label "a a b") = Ok c2 →
  LabelWordFrequency c1 label "a" = LabelWordFrequency c label "a" + 1 ∧
  LabelWordFrequency c1 label "b" = LabelWordFrequency c label "b" + 1 ∧
  LabelWordFrequency c2 label "a" = LabelWordFrequency c1 label "a" + 1 ∧
  LabelWordFrequency c2 label "b" = LabelWordFrequency c1 label "b" + 1.
Proof.
  intros H1 H2.
  rewrite (train_row_ingest _ _ _ H2), (train_row_ingest _ _ _ H1).
  change (row_get (post label "a a b") "tag") with label.
  change (row_get (post label "a a b") "content") with "a a b"%string.
  rewrite !ingest_LabelWordFrequency.
  assert ("a"%string ∈ unique_words "a a b") by (by vm_compute).
  assert ("b"%string ∈ unique_words "a a b") by (by vm_compute).
  by rewrite !decide_True by done.
Qed.

Lemma grows_refl (m : gmap string Z) : grows m m.
Proof. intros k n H. exists n. split; [done | lia]. Qed.

Lemma grows_trans (m1 m2 m3 : gmap string Z) : grows m1 m2 → grows m2 m3 → grows m1 m3.
Proof.
  intros H12 H23 k n H. destruct (H12 k n H) as (n2 & H2 & Hle).
  destruct (H23 k n2 H2) as (n3 & H3 & Hle'). exists n3. split; [done | lia].
Qed.

Lemma grows_bump (ws : gset string) (m : gmap string Z) : grows m (bump ws m).
Proof.
  intros k n H. rewrite lookup_bump. unfold count_of. rewrite H. simpl.
  destruct (decide (k ∈ ws)); eexists; (split; [done | lia]).
Qed.

Lemma grows_incr (k : string) (m : gmap string Z) :
  grows m (<[k := count_of m k + 1]> m).
Proof.
  intros k' n H. destruct (decide (k' = k)) as [->|Hne].
  - rewrite lookup_insert_eq. unfold count_of. rewrite H. simpl.
    eexists. split; [done | lia].
  - rewrite lookup_insert_ne by done. exists n. split; [done | lia].
Qed.

Lemma extends_refl (c : Classifier) : extends c c.
Proof.
  unfold extends. split; [done|]. split; [apply grows_refl|]. split; [done|].
  split; [apply grows_refl|]. split; [done|]. split; [|done].
  intros l inner Hin. exists inner. split; [done | apply grows_refl].
Qed.

Lemma extends_ingest (c c1 : Classifier) (label content : string) :
  extends c c1 → extends c (ingest c1 label content).
Proof.
  intros (Hv & Hw & Hdf & Hl & Hlf & Hlw & Hlwf & Ht & Hd).
  split; [|split; [|split; [|split; [|split; [|split; [|split; [|split]]]]]]].
  - rewrite ingest_Vocabulary. set_solver.
  - eapply grows_trans; [exact Hw | apply grows_bump].
  - intros w. rewrite ingest_DocFrequency. specialize (Hdf w).
    destruct (decide _); lia.
  - eapply grows_trans; [exact Hl | apply grows_incr].
  - intros l. rewrite ingest_LabelFrequency. specialize (Hlf l).
    destruct (decide _); lia.
  - intros l inner Hin. destruct (Hlw l inner Hin) as (inner1 & Hin1 & Hg).
    rewrite lookup_ingest_label_word, Hin1. simpl.
    destruct (decide _); eexists; (split; [done|]); [|done].
    eapply grows_trans; [exact Hg | apply grows_bump].
  - intros l w. rewrite ingest_LabelWordFrequency. specialize (Hlwf l w).
    destruct (decide _); lia.
  - rewrite ingest_TotalDocuments. lia.
  - simpl. etrans; [exact Hd | by apply prefix_app_r].
Qed.

(** C7. Training on further documents never shrinks the vocabulary and
    never removes or lowers an entry of [DocFrequency]; the same holds of
    the other tables, and the stored training data is only extended. *)
Theorem training_monotone (rows : list csv_row) (c c' : Classifier) :
  train_rows rows c = Ok c' →
  (size (Vocabulary c) ≤ size (Vocabulary c'))%nat ∧
  Vocabulary c ⊆ Vocabulary c' ∧
  grows (numPosts_word c) (numPosts_word c') ∧
  (∀ w : string, DocFrequency c w ≤ DocFrequency c' w) ∧
  grows (numPosts_label c) (numPosts_label c') ∧
  (∀ l : string, LabelFrequency c l ≤ LabelFrequency c' l) ∧
  (∀ l inner, numPosts_label_word c !! l = Some inner →
              ∃ inner', numPosts_label_word c' !! l = Some inner' ∧ grows inner inner') ∧
  (∀ l w : string, LabelWordFrequency c l w ≤ LabelWordFrequency c' l w) ∧
  TotalDocuments c ≤ TotalDocuments c' ∧
  trainingData c `prefix_of` trainingData c'.
Proof.
  intros H.
  assert (extends c c') as Hext.
  { apply (train_rows_ind (extends c) rows c c'); [apply extends_refl | | exact H].
    intros c1 row c2 Hc1 Hstep. rewrite (train_row_ingest _ _ _ Hstep).
    by apply extends_ingest. }
  split; [|exact Hext]. apply subseteq_size. by destruct Hext as [Hv _].
Qed.

(** C8. A document with empty content has an empty word set: ingesting it
    into a trained classifier that holds fewer than [INT_MAX] posts
    succeeds, changes neither the vocabulary nor [DocFrequency] nor
    [LabelWordFrequency], and adds one to [TotalDocuments] and to
    [LabelFrequency[label]]; the document is stored with the training
    data. *)
Theorem empty_content_counts_as_document (c : Classifier) (row : csv_row) :
  trained c → TotalDocuments c < INT_MAX →
  row_get row "content" = ""%string →
  unique_words (row_get row "content") = ∅ ∧
  ∃ c', train_row c row = Ok c' ∧
        Vocabulary c' = Vocabulary c ∧
        numPosts_word c' = numPosts_word c ∧
        numPosts_label_word c' = numPosts_label_word c ∧
        TotalDocuments c' = TotalDocuments c + 1 ∧
        LabelFrequency c' (row_get row "tag") = LabelFrequency c (row_get row "tag") + 1 ∧
        trainingData c' = trainingData c ++ [(row_get row "tag", ""%string)].
Proof.
  intros Ht Hmax Hcontent. rewrite Hcontent. split; [done|].
  eexists. split.
  { apply train_row_Ok; [by apply trained_well_formed | done]. }
  rewrite Hcontent, ingest_LabelFrequency, decide_True by done.
  unfold ingest, Vocabulary. simpl.
  change (unique_words "") with (∅ : gset string).
  rewrite bump_empty, decide_True by done.
  split; [set_solver | done].
Qed.

(** ** Prediction without labels *)

(** C10. On a classifier with no label ([numPosts_label] empty, as after
    training on no document) [predict] does not fault and returns the
    empty label with the score [lowest], whatever the division and the
    logarithm are: the loop over the labels has no iteration. *)
Theorem predict_without_labels `{F : FloatOps} (c : Classifier) (content : string) :
  numPosts_label c = ∅ →
  predict c content = Ok (""%string, lowest).
Proof. intros H. unfold predict. by rewrite H, map_items_empty. Qed.

(** ** The diagnostic dump *)

Section Dump.
Context `{F : FloatOps}.

(** C9 (amended). The "classes:" section of the dump lists every label
    of the classifier once, with its document count and its log-prior,
    in strictly ascending lexicographic order of the labels. *)
Theorem dump_classes_in_label_order (c : Classifier) :
  ∃ entries : list (string * Z),
    print_classes c =
      [OStr "classes:"; OEndl]
      ++ flat_map (λ e : string * Z,
           [OStr "  "; OStr e.1; OStr ", "; OInt e.2;
            OStr " examples, log-prior = ";
            ODouble (flog (fdiv (of_int e.2) (of_int (TotalDocuments c))));
            OEndl]) entries ∧
    StronglySorted (λ e e' : string * Z, String.ltb e.1 e'.1 = true) entries ∧
    ∀ l n, (l, n) ∈ entries ↔ numPosts_label c !! l = Some n.
Proof.
  exists (map_items (numPosts_label c)). split; [done|]. split.
  - apply map_items_sorted.
  - intros l n. apply elem_of_map_items.
Qed.

Lemma flat_map_elem {A B : Type} (f : A → list B) (l : list A) (x : A) :
  x ∈ l → ∃ pre post, flat_map f l = pre ++ f x ++ post.
Proof.
  intros (l1 & l2 & ->)%list_elem_of_split.
  exists (flat_map f l1), (flat_map f l2).
  by rewrite flat_map_app.
Qed.

Lemma print_classes_xxxy :
  print_classes xxxy =
  [OStr "classes:"; OEndl;
   OStr "  "; OStr "x"; OStr ", "; OInt 3; OStr " examples, log-prior = ";
   ODouble (flog (fdiv (of_int 3) (of_int 4))); OEndl;
   OStr "  "; OStr "y"; OStr ", "; OInt 1; OStr " examples, log-prior = ";
   ODouble (flog (fdiv (of_int 1) (of_int 4))); OEndl].
Proof. by vm_compute. Qed.

Lemma print_classes_b_then_a :
  print_classes b_then_a =
  [OStr "classes:"; OEndl;
   OStr "  "; OStr "a"; OStr ", "; OInt 1; OStr " examples, log-prior = ";
   ODouble (flog (fdiv (of_int 1) (of_int 2))); OEndl;
   OStr "  "; OStr "b"; OStr ", "; OInt 1; OStr " examples, log-prior = ";
   ODouble (flog (fdiv (of_int 1) (of_int 2))); OEndl].
Proof. by vm_compute. Qed.

Lemma print_classes_insertion_order_b_then_a :
  print_classes_insertion_order b_then_a =
  [OStr "classes:"; OEndl;
   OStr "  "; OStr "b"; OStr ", "; OInt 1; OStr " examples, log-prior = ";
   ODouble (flog (fdiv (of_int 1) (of_int 2))); OEndl;
   OStr "  "; OStr "a"; OStr ", "; OInt 1; OStr " examples, log-prior = ";
   ODouble (flog (fdiv (of_int 1) (of_int 2))); OEndl].
Proof. by vm_compute. Qed.
End Dump.

(** ** The program *)

Section Main.
Context `{F : FloatOps}.

Lemma print_classifier_parameters_empty :
  print_classifier_parameters empty_classifier =
  Ok [OStr "classes:"; OEndl; OStr "classifier parameters:"; OEndl].
Proof. by vm_compute. Qed.

(** C4 (the code at the failing input). When the training file does not
    open and no test file is given, [main] writes the error message,
    goes on to dump the untrained classifier and exits with status 0. *)
Theorem main_unreadable_training_file (fs : file_system) (prog train_file : string) :
  fs train_file = None →
  main fs [prog; train_file] =
  Ok ([OStr "Error opening file: "; OStr train_file; OEndl;
       OStr "training data:"; OEndl;
       OStr "trained on "; OInt 0; OStr " examples"; OEndl;
       OStr "vocabulary size = "; OInt 0; OEndl; OEndl;
       OStr "classes:"; OEndl; OStr "classifier parameters:"; OEndl], 0).
Proof.
  intros Hfs. unfold main, train. simpl. rewrite Hfs. simpl.
  by rewrite print_classifier_parameters_empty.
Qed.

(** The sibling path: an unreadable test file makes [main] exit with
    status 1. *)
Lemma main_unreadable_test_file (fs : file_system) (prog train_file test_file : string)
    (rows : list csv_row) (c : Classifier) :
  fs train_file = Some rows → train_rows rows empty_classifier = Ok c →
  fs test_file = None →
  main fs [prog; train_file; test_file] =
  Ok ([OStr "Error opening file: "; OStr test_file; OEndl], 1).
Proof.
  intros Htrain Hc Htest. unfold main, train. simpl.
  rewrite Htrain, Hc. simpl. by rewrite Htest.
Qed.

(** With an unreadable training file and a readable test file, [main]
    predicts with the untrained classifier and exits with status 0. *)
Lemma main_unreadable_training_file_test (fs : file_system)
    (prog train_file test_file : string) :
  fs train_file = None → fs test_file = Some [] →
  ∃ out, main fs [prog; train_file; test_file] = Ok (out, 0).
Proof.
  intros Htrain Htest. unfold main, train. simpl.
  rewrite Htrain. simpl. rewrite Htest. simpl. by eexists.
Qed.
End Main.

(** ** Comparisons and logarithms over the reals *)

Section RealFacts.
Import Reals.Reals Lra.
Import RealArith.
Local Open Scope R_scope.

Lemma Rgtb_true (x y : R) : Rgtb x y = true ↔ x > y.
Proof. unfold Rgtb. destruct (Rgt_dec x y); split; (done || lra). Qed.

Lemma Rgtb_false (x y : R) : Rgtb x y = false ↔ x <= y.
Proof. unfold Rgtb. destruct (Rgt_dec x y); split; (done || lra). Qed.

Lemma Reqb_true (x y : R) : Reqb x y = true ↔ x = y.
Proof. unfold Reqb. destruct (Req_dec_T x y); split; (done || lra). Qed.

Lemma ln_2_lt_1 : ln 2 < 1.
Proof.
  apply Rlt_le_trans with (ln (exp 1)); [|rewrite ln_exp; lra].
  apply ln_increasing; [lra|]. pose proof (exp_ineq1 1). lra.
Qed.

Lemma ln_le (x y : R) : 0 < x → x <= y → ln x <= ln y.
Proof.
  intros Hx [Hlt | ->]; [|lra]. left. by apply ln_increasing.
Qed.

End RealFacts.

(** ** The claims at concrete inputs *)

Section Witnesses.
Import RealArith.
#[local] Existing Instance RealOps.

Lemma trained_xxxy : trained xxxy.
Proof. exists xxxy_rows. apply train_xxxy. Qed.

Lemma trained_sports_politics : trained sports_politics.
Proof. exists sports_politics_rows. apply train_sports_politics. Qed.

Lemma train_politics_sports :
  train_rows (reverse sports_politics_rows) empty_classifier = Ok politics_sports.
Proof. by vm_compute. Qed.

Lemma train_x_aab : train_row empty_classifier (post "x" "a a b") = Ok x_aab.
Proof. by vm_compute. Qed.

(** The three tiers on the corpus [xxxy]: ["a"] under ["x"] is in the
    first, ["b"] under ["y"] in the second, an unseen word in the third. *)
Example three_tiers_xxxy `{F : FloatOps} :
  calculate_log_likelihood xxxy "x" "a" = Ok (flog (fdiv (of_int 2) (of_int 3))) ∧
  calculate_log_likelihood xxxy "y" "b" = Ok (flog (fdiv (of_int 2) (of_int 4))) ∧
  calculate_log_likelihood xxxy "y" "zzz" = Ok (flog (fdiv (of_int 1) (of_int 4))).
Proof. by vm_compute. Qed.

Lemma log_likelihood_three_tier_witness :
  trained xxxy ∧
  calculate_log_likelihood (F := RealOps) xxxy "x" "a" =
  Ok (Rpower.ln (Rdefinitions.Rdiv (Rdefinitions.IZR 2) (Rdefinitions.IZR 3))).
Proof.
  split; [exact trained_xxxy|].
  exact (log_likelihood_three_tier (F := RealOps) xxxy "x" "a" trained_xxxy).
Defined.

Lemma count_consistency_witness :
  train_rows xxxy_rows empty_classifier = Ok xxxy ∧
  TotalDocuments xxxy = sum_over id (numPosts_label xxxy) ∧
  (∀ w : string,
      DocFrequency xxxy w =
      sum_over (λ inner, count_of inner w) (numPosts_label_word xxxy)) ∧
  train_row empty_classifier (post "x" "a a b") = Ok x_aab ∧
  TotalDocuments x_aab = sum_over id (numPosts_label x_aab) ∧
  (∀ w : string,
      DocFrequency x_aab w =
      sum_over (λ inner, count_of inner w) (numPosts_label_word x_aab)).
Proof.
  destruct count_consistency as [Hall Hstep].
  split; [exact train_xxxy|].
  destruct (Hall xxxy_rows xxxy train_xxxy) as [Ht Hd].
  split; [exact Ht|]. split; [exact Hd|].
  split; [exact train_x_aab|].
  apply (Hstep empty_classifier x_aab (post "x" "a a b")).
  - reflexivity.
  - intros w. reflexivity.
  - exact train_x_aab.
Defined.

Lemma ingest_counts_each_word_once_witness :
  train_row empty_classifier (post "x" "a a b") = Ok x_aab ∧
  extract_words "" "a a b" = ["a"; "a"; "b"]%string ∧
  LabelWordFrequency x_aab "x" "a" = LabelWordFrequency empty_classifier "x" "a" + 1 ∧
  DocFrequency x_aab "a" = DocFrequency empty_classifier "a" + 1 ∧
  "a"%string ∈ Vocabulary x_aab.
Proof.
  split; [exact train_x_aab|]. split; [reflexivity|].
  apply (ingest_counts_each_word_once empty_classifier x_aab (post "x" "a a b")
           train_x_aab "a").
  change ("a"%string ∈ ["a"; "a"; "b"]%string). by left.
Defined.

Lemma empty_content_counts_as_document_witness :
  trained xxxy ∧ TotalDocuments xxxy < INT_MAX ∧
  row_get (post "y" "") "content" = ""%string ∧
  ∃ c', train_row xxxy (post "y" "") = Ok c' ∧
        Vocabulary c' = Vocabulary xxxy ∧
        TotalDocuments c' = 5 ∧ LabelFrequency c' "y" = 2.
Proof.
  split; [exact trained_xxxy|]. split; [reflexivity|]. split; [reflexivity|].
  destruct (empty_content_counts_as_document xxxy (post "y" "") trained_xxxy
              eq_refl eq_refl) as (_ & c' & Hc' & Hv & _ & _ & Ht & Hl & _).
  exists c'. split; [exact Hc'|]. split; [exact Hv|]. split; [exact Ht | exact Hl].
Defined.

Lemma predict_without_labels_witness :
  numPosts_label empty_classifier = ∅ ∧
  predict (F := RealOps) empty_classifier "hello world" = Ok (""%string, lowest).
Proof.
  split; [reflexivity|].
  exact (predict_without_labels (F := RealOps) empty_classifier "hello world" eq_refl).
Defined.

Lemma main_unreadable_training_file_witness :
  no_files "missing.csv"%string = None ∧
  main (F := RealOps) no_files ["classifier.exe"; "missing.csv"]%string =
  Ok ([OStr "Error opening file: "; OStr "missing.csv"; OEndl;
       OStr "training data:"; OEndl;
       OStr "trained on "; OInt 0; OStr " examples"; OEndl;
       OStr "vocabulary size = "; OInt 0; OEndl; OEndl;
       OStr "classes:"; OEndl; OStr "classifier parameters:"; OEndl], 0).
Proof.
  split; [reflexivity|].
  exact (main_unreadable_training_file (F := RealOps) no_files
           "classifier.exe" "missing.csv" eq_refl).
Defined.

(** C9 (as stated) fails: after training on a post labelled ["b"] and
    then one labelled ["a"], the labels were first seen in the order
    ["b"], ["a"], but the dump lists ["a"] before ["b"]. *)
Lemma dump_classes_not_in_insertion_order :
  train_rows b_then_a_rows empty_classifier = Ok b_then_a ∧
  first_seen (trainingData b_then_a).*1 = ["b"; "a"]%string ∧
  print_classes (F := RealOps) b_then_a ≠
  print_classes_insertion_order (F := RealOps) b_then_a.
Proof.
  split; [exact train_b_then_a|]. split; [reflexivity|].
  rewrite print_classes_b_then_a, print_classes_insertion_order_b_then_a.
  discriminate.
Qed.
End Witnesses.

(** * Further properties of the code *)

(** ** [unique_words] *)

Lemma string_forall_app (p : ascii → bool) (s1 s2 : string) :
  string_forall p (s1 +:+ s2) = string_forall p s1 && string_forall p s2.
Proof.
  induction s1 as [|ch s1 IH]; simpl; [done|].
  by rewrite IH, andb_assoc.
Qed.

Lemma append_char_nonempty (cur : string) (ch : ascii) :
  cur +:+ String ch "" ≠ ""%string.
Proof. by destruct cur. Qed.

Lemma extract_words_tokens (cur s w : string) :
  string_forall (λ ch, negb (isspace ch)) cur = true →
  w ∈ extract_words cur s →
  w ≠ ""%string ∧ string_forall (λ ch, negb (isspace ch)) w = true.
Proof.
  revert cur. induction s as [|ch s IH]; intros cur Hcur; simpl.
  - destruct (decide (cur = ""%string)) as [E|E].
    + intros H. inversion H.
    + intros ->%list_elem_of_singleton. done.
  - destruct (isspace ch) eqn:Hch.
    + destruct (decide (cur = ""%string)) as [E|E].
      * by apply IH.
      * intros [-> | H]%elem_of_cons; [done | by apply (IH ""%string)].
    + apply IH. rewrite string_forall_app, Hcur. simpl. by rewrite Hch.
Qed.

Lemma extract_words_nil (cur s : string) :
  extract_words cur s = [] ↔ cur = ""%string ∧ string_forall isspace s = true.
Proof.
  revert cur. induction s as [|ch s IH]; intros cur; simpl.
  - destruct (decide (cur = ""%string)); split; (done || tauto || by intros [? _]).
  - destruct (isspace ch) eqn:Hch; simpl.
    + destruct (decide (cur = ""%string)) as [E|E].
      * rewrite IH. tauto.
      * split; [done | by intros [? _]].
    + rewrite IH. split; [|by intros [_ ?]].
      intros [E _]. by apply append_char_nonempty in E.
Qed.

Lemma extract_words_app (cur s1 s2 : string) (sp : ascii) :
  isspace sp = true →
  extract_words cur (s1 +:+ String sp s2) =
  extract_words cur s1 ++ extract_words "" s2.
Proof.
  intros Hsp. revert cur. induction s1 as [|ch s1 IH]; intros cur; simpl.
  - rewrite Hsp. by destruct (decide (cur = ""%string)).
  - destruct (isspace ch); [|apply IH].
    destruct (decide (cur = ""%string)); [apply IH|].
    by rewrite IH.
Qed.

(** X1. Every word that [unique_words] returns is non-empty and holds no
    whitespace character. *)
Theorem unique_words_tokens (content w : string) :
  w ∈ unique_words content →
  w ≠ ""%string ∧ string_forall (λ ch, negb (isspace ch)) w = true.
Proof.
  intros H%elem_of_unique_words. by apply (extract_words_tokens ""%string content).
Qed.

(** X2. The words of two texts joined by a whitespace character are the
    words of the one together with the words of the other. *)
Theorem unique_words_join (s1 s2 : string) (sp : ascii) :
  isspace sp = true →
  unique_words (s1 +:+ String sp s2) = unique_words s1 ∪ unique_words s2.
Proof.
  intros Hsp. unfold unique_words.
  rewrite extract_words_app by done.
  apply list_to_set_app_L.
Qed.

(** X3. [unique_words] returns the empty set exactly for the contents made
    of whitespace characters only (the empty content among them). *)
Theorem unique_words_empty_iff (content : string) :
  unique_words content = ∅ ↔ string_forall isspace content = true.
Proof.
  unfold unique_words. split.
  - intros H. apply (extract_words_nil ""%string content).
    destruct (extract_words "" content) as [|w l]; [done|].
    exfalso. apply (not_elem_of_empty (C := gset string) w).
    rewrite <- H. set_solver.
  - intros H. assert (extract_words "" content = []) as ->; [|done].
    by apply extract_words_nil.
Qed.

(** ** Training: bounds and closed forms *)

Lemma wf_LabelFrequency (c : Classifier) (l : string) :
  well_formed c → 0 ≤ LabelFrequency c l ≤ total_posts c.
Proof.
  intros Hwf. pose proof (wf_total c Hwf). unfold LabelFrequency, count_of.
  destruct (numPosts_label c !! l) as [n|] eqn:E; simpl; [|lia].
  pose proof (wf_label c Hwf l n E). lia.
Qed.

Lemma wf_DocFrequency (c : Classifier) (w : string) :
  well_formed c → 0 ≤ DocFrequency c w ≤ total_posts c.
Proof.
  intros Hwf. pose proof (wf_total c Hwf). unfold DocFrequency, count_of.
  destruct (numPosts_word c !! w) as [n|] eqn:E; simpl; [|lia].
  pose proof (wf_word c Hwf w n E). lia.
Qed.

Lemma wf_LabelWordFrequency (c : Classifier) (l w : string) :
  well_formed c → 0 ≤ LabelWordFrequency c l w ≤ LabelFrequency c l.
Proof.
  intros Hwf. pose proof (wf_LabelFrequency c l Hwf) as Hl.
  unfold LabelWordFrequency.
  destruct (numPosts_label_word c !! l) as [inner|] eqn:E; simpl.
  - destruct (inner !! w) as [n|] eqn:E'.
    + assert (count_of inner w = n) as -> by (unfold count_of; by rewrite E').
      pose proof (wf_label_word c Hwf l inner w n E E') as Hn.
      unfold LabelFrequency. lia.
    + assert (count_of inner w = 0) as -> by (unfold count_of; by rewrite E').
      lia.
  - assert (count_of ∅ w = 0) as -> by done. lia.
Qed.

Lemma train_rows_overflow (rows : list csv_row) (c : Classifier) :
  well_formed c → INT_MAX < total_posts c + Z.of_nat (length rows) →
  train_rows rows c = Fault SignedOverflow.
Proof.
  unfold train_rows. revert c. induction rows as [|row rows IH]; intros c Hwf Hlen.
  - pose proof (wf_total c Hwf). simpl in Hlen. lia.
  - simpl. destruct (decide (total_posts c < INT_MAX)) as [Hlt|Hge].
    + rewrite train_row_Ok by done. simpl. apply IH.
      * by apply well_formed_ingest.
      * simpl in *. lia.
    + rewrite train_row_overflow by lia. done.
Qed.

(** X4. Training from the empty classifier succeeds exactly when the file
    has at most [INT_MAX] rows; with more rows the counter [total_posts]
    overflows. *)
Theorem training_overflow_boundary (rows : list csv_row) :
  ((∃ c, train_rows rows empty_classifier = Ok c) ↔
   Z.of_nat (length rows) ≤ INT_MAX) ∧
  (INT_MAX < Z.of_nat (length rows) →
   train_rows rows empty_classifier = Fault SignedOverflow).
Proof.
  assert (INT_MAX < Z.of_nat (length rows) →
          train_rows rows empty_classifier = Fault SignedOverflow) as Hover.
  { intros H. apply train_rows_overflow; [apply well_formed_empty | simpl; lia]. }
  split; [|done]. split.
  - intros [c Hc]. destruct (decide (Z.of_nat (length rows) ≤ INT_MAX)); [done|].
    rewrite Hover in Hc by lia. done.
  - apply train_total.
Qed.

Lemma label_word_le_doc (c : Classifier) :
  trained c → ∀ l w, LabelWordFrequency c l w ≤ DocFrequency c w.
Proof.
  intros [rows H].
  apply (train_rows_ind
           (λ c, ∀ l w, LabelWordFrequency c l w ≤ DocFrequency c w)
           rows empty_classifier c); [done | | done].
  intros c1 row c2 IH Hstep l w. rewrite (train_row_ingest _ _ _ Hstep).
  rewrite ingest_LabelWordFrequency, ingest_DocFrequency. specialize (IH l w).
  destruct (decide (w ∈ _)) as [Hw|Hw].
  - destruct (decide (_ ∧ _)); lia.
  - rewrite decide_False by tauto. lia.
Qed.

(** X5. In every trained classifier the counts are ordered:
    [0 ≤ LabelWordFrequency[l][w] ≤ LabelFrequency[l] ≤ TotalDocuments ≤ INT_MAX]
    and [LabelWordFrequency[l][w] ≤ DocFrequency[w] ≤ TotalDocuments]. *)
Theorem count_bounds (c : Classifier) (l w : string) :
  trained c →
  0 ≤ LabelWordFrequency c l w ∧
  LabelWordFrequency c l w ≤ LabelFrequency c l ∧
  LabelFrequency c l ≤ TotalDocuments c ∧
  LabelWordFrequency c l w ≤ DocFrequency c w ∧
  DocFrequency c w ≤ TotalDocuments c ∧
  TotalDocuments c ≤ INT_MAX.
Proof.
  intros Ht. pose proof (trained_well_formed c Ht) as Hwf.
  pose proof (wf_LabelWordFrequency c l w Hwf).
  pose proof (wf_LabelFrequency c l Hwf).
  pose proof (wf_DocFrequency c w Hwf).
  pose proof (label_word_le_doc c Ht l w).
  pose proof (wf_total c Hwf).
  unfold TotalDocuments. lia.
Qed.

Lemma count_rows_nil (P : csv_row → Prop) `{∀ row, Decision (P row)} :
  count_rows P [] = 0.
Proof. done. Qed.

Lemma count_rows_cons (P : csv_row → Prop) `{∀ row, Decision (P row)}
    (row : csv_row) (rows : list csv_row) :
  count_rows P (row :: rows) = (if decide (P row) then 1 else 0) + count_rows P rows.
Proof.
  unfold count_rows. rewrite filter_cons.
  destruct (decide (P row)); simpl length; lia.
Qed.

Lemma ingest_all_counts (rows : list csv_row) (c : Classifier) :
  TotalDocuments (ingest_all rows c) = TotalDocuments c + Z.of_nat (length rows) ∧
  (∀ l, LabelFrequency (ingest_all rows c) l =
        LabelFrequency c l + count_rows (λ row, row_get row "tag" = l) rows) ∧
  (∀ w, DocFrequency (ingest_all rows c) w =
        DocFrequency c w +
        count_rows (λ row, w ∈ unique_words (row_get row "content")) rows) ∧
  (∀ l w, LabelWordFrequency (ingest_all rows c) l w =
          LabelWordFrequency c l w +
          count_rows (λ row, row_get row "tag" = l ∧
                             w ∈ unique_words (row_get row "content")) rows) ∧
  (∀ w, w ∈ Vocabulary (ingest_all rows c) ↔
        w ∈ Vocabulary c ∨
        ∃ row, row ∈ rows ∧ w ∈ unique_words (row_get row "content")) ∧
  trainingData (ingest_all rows c) = trainingData c ++ (row_pair <$> rows).
Proof.
  revert c. induction rows as [|row rows IH]; intros c.
  - simpl. rewrite app_nil_r.
    split; [lia|]. split; [intros l; rewrite count_rows_nil; lia|].
    split; [intros w; rewrite count_rows_nil; lia|].
    split; [intros l w; rewrite count_rows_nil; lia|].
    split; [|done]. intros w. split; [by left|].
    intros [? | (row & Hrow & _)]; [done | inversion Hrow].
  - destruct (IH (ingest c (row_get row "tag") (row_get row "content")))
      as (Ht & Hl & Hw & Hlw & Hv & Hd).
    change (ingest_all (row :: rows) c)
      with (ingest_all rows (ingest c (row_get row "tag") (row_get row "content"))).
    split; [|split; [|split; [|split; [|split]]]].
    + rewrite Ht, ingest_TotalDocuments. simpl length. lia.
    + intros l. rewrite Hl, ingest_LabelFrequency, count_rows_cons.
      destruct (decide (l = _)), (decide (_ = l)); (lia || congruence).
    + intros w. rewrite Hw, ingest_DocFrequency, count_rows_cons.
      destruct (decide _); lia.
    + intros l w. rewrite Hlw, ingest_LabelWordFrequency, count_rows_cons.
      destruct (decide (l = _ ∧ _)) as [[E ?]|N], (decide (_ = l ∧ _)) as [[E' ?]|N'];
        try lia; exfalso; [apply N' | apply N]; by split.
    + intros w. rewrite Hv, ingest_Vocabulary, elem_of_union. split.
      * intros [[Hw' | Hw'] | (r & Hr & Hw')].
        -- right. exists row. split; [by left | done].
        -- by left.
        -- right. exists r. split; [by right | done].
      * intros [Hw' | (r & [-> | Hr]%elem_of_cons & Hw')].
        -- left. by right.
        -- left. by left.
        -- right. by exists r.
    + rewrite Hd. simpl. by rewrite <- app_assoc.
Qed.

(** X6. After training on the rows of a file, each count is the number of
    rows it stands for: [TotalDocuments] the number of rows,
    [LabelFrequency[l]] the rows tagged [l], [DocFrequency[w]] the rows whose
    content holds the word [w], [LabelWordFrequency[l][w]] the rows tagged
    [l] whose content holds [w]; the vocabulary is the set of words of all
    contents, and the stored training data are the tag and content of
    each row, in file order. *)
Theorem counts_closed_form (rows : list csv_row) (c : Classifier) :
  train_rows rows empty_classifier = Ok c →
  TotalDocuments c = Z.of_nat (length rows) ∧
  (∀ l, LabelFrequency c l = count_rows (λ row, row_get row "tag" = l) rows) ∧
  (∀ w, DocFrequency c w =
        count_rows (λ row, w ∈ unique_words (row_get row "content")) rows) ∧
  (∀ l w, LabelWordFrequency c l w =
          count_rows (λ row, row_get row "tag" = l ∧
                             w ∈ unique_words (row_get row "content")) rows) ∧
  (∀ w, w ∈ Vocabulary c ↔
        ∃ row, row ∈ rows ∧ w ∈ unique_words (row_get row "content")) ∧
  trainingData c = row_pair <$> rows.
Proof.
  intros ->%train_rows_ingest_all.
  destruct (ingest_all_counts rows empty_classifier) as (Ht & Hl & Hw & Hlw & Hv & Hd).
  split; [by rewrite Ht|]. split; [intros l; by rewrite Hl|].
  split; [intros w; by rewrite Hw|]. split; [intros l w; by rewrite Hlw|].
  split; [|by rewrite Hd].
  intros w. rewrite Hv. split; [|by right].
  intros [Hw' | ?]; [|done]. by apply not_elem_of_empty in Hw'.
Qed.

Lemma flat_map_fmap {A B C : Type} (f : B → list C) (g : A → B) (l : list A) :
  flat_map f (g <$> l) = flat_map (λ x, f (g x)) l.
Proof.
  induction l as [|x l IH]; [done|].
  rewrite fmap_cons. simpl. by rewrite IH.
Qed.

(** X7. After training on the rows of a file, [print_training_data]
    replays one line per row, in file order, with the tag and the raw
    content of the row, and the number of examples it reports is the
    number of rows. *)
Theorem print_training_data_replay `{F : FloatOps} (rows : list csv_row) (c : Classifier) :
  train_rows rows empty_classifier = Ok c →
  print_training_data c =
  [OStr "training data:"; OEndl]
  ++ flat_map (λ row : csv_row,
       [OStr "  label = "; OStr (row_get row "tag"); OStr ", content = ";
        OStr (row_get row "content"); OEndl]) rows
  ++ [OStr "trained on "; OInt (Z.of_nat (length rows)); OStr " examples"; OEndl;
      OStr "vocabulary size = "; OInt (Z.of_nat (size (Vocabulary c))); OEndl;
      OEndl].
Proof.
  intros ->%train_rows_ingest_all.
  destruct (ingest_all_counts rows empty_classifier) as (Ht & _ & _ & _ & _ & Hd).
  unfold print_training_data, getTotalPosts.
  unfold TotalDocuments in Ht.
  change (trainingData empty_classifier) with (@nil (string * string)) in Hd.
  rewrite app_nil_l in Hd. rewrite Ht, Hd, flat_map_fmap. done.
Qed.

Lemma doc_pos_iff (c : Classifier) :
  trained c → ∀ w, 0 < DocFrequency c w ↔ ∃ l, 0 < LabelWordFrequency c l w.
Proof.
  intros [rows H].
  enough (well_formed c ∧
          ∀ w, 0 < DocFrequency c w ↔ ∃ l, 0 < LabelWordFrequency c l w) by tauto.
  apply (train_rows_ind
           (λ c, well_formed c ∧
                 ∀ w, 0 < DocFrequency c w ↔ ∃ l, 0 < LabelWordFrequency c l w)
           rows empty_classifier c); [| |done].
  - split; [apply well_formed_empty|]. intros w.
    split; [done | by intros [l Hl]].
  - intros c1 row c2 [Hwf IH] Hstep. split; [by eapply well_formed_train_row|].
    intros w. rewrite (train_row_ingest _ _ _ Hstep), ingest_DocFrequency.
    destruct (decide (w ∈ _)) as [Hw|Hw].
    + pose proof (wf_DocFrequency c1 w Hwf).
      split; [intros _ | lia]. exists (row_get row "tag").
      rewrite ingest_LabelWordFrequency, decide_True by done.
      pose proof (wf_LabelWordFrequency c1 (row_get row "tag") w Hwf). lia.
    + rewrite Z.add_0_r, IH. split; intros [l Hl]; exists l.
      * rewrite ingest_LabelWordFrequency, decide_False by tauto. lia.
      * rewrite ingest_LabelWordFrequency, decide_False in Hl by tauto. lia.
Qed.

Lemma vocabulary_doc_pos (c : Classifier) (w : string) :
  well_formed c → w ∈ Vocabulary c ↔ 0 < DocFrequency c w.
Proof.
  intros Hwf. unfold Vocabulary, DocFrequency, count_of.
  rewrite (wf_vocabulary c Hwf), elem_of_dom.
  destruct (numPosts_word c !! w) as [n|] eqn:E; simpl.
  - pose proof (wf_word c Hwf w n E). split; [lia | by eexists].
  - split; [by intros [? ?] | lia].
Qed.

(** X8. In a trained classifier a word is in the vocabulary exactly when
    its [DocFrequency] is positive, and exactly when some label has a
    positive [LabelWordFrequency] for it. *)
Theorem vocabulary_iff_counted (c : Classifier) (w : string) :
  trained c →
  (w ∈ Vocabulary c ↔ 0 < DocFrequency c w) ∧
  (w ∈ Vocabulary c ↔ ∃ l, 0 < LabelWordFrequency c l w).
Proof.
  intros Ht. pose proof (trained_well_formed c Ht) as Hwf.
  split; [by apply vocabulary_doc_pos|].
  by rewrite vocabulary_doc_pos, doc_pos_iff.
Qed.

(** X9. For a word outside the vocabulary of a trained classifier,
    [calculate_log_likelihood] returns [ln(1 / TotalDocuments)] whatever
    the label. *)
Theorem unseen_word_floor `{F : FloatOps} (c : Classifier) (label w : string) :
  trained c → w ∉ Vocabulary c →
  calculate_log_likelihood c label w =
  Ok (flog (fdiv (of_int 1) (of_int (TotalDocuments c)))).
Proof.
  intros Ht Hw. pose proof (trained_well_formed c Ht) as Hwf.
  rewrite calculate_log_likelihood_wf by done. unfold logLikelihood.
  rewrite vocabulary_doc_pos in Hw by done.
  pose proof (label_word_le_doc c Ht label w).
  destruct (Z.ltb_spec 0 (LabelWordFrequency c label w)); [lia|].
  destruct (Z.ltb_spec 0 (DocFrequency c w)); [lia | done].
Qed.

(** X10. For a label that training never saw, [calculate_log_likelihood]
    does not fault and never takes the first tier: it returns
    [ln(DocFrequency[w] / TotalDocuments)] for a word of the vocabulary and
    [ln(1 / TotalDocuments)] otherwise. *)
Theorem unseen_label_backoff `{F : FloatOps} (c : Classifier) (label w : string) :
  trained c → numPosts_label c !! label = None →
  calculate_log_likelihood c label w =
  Ok (if decide (w ∈ Vocabulary c)
      then flog (fdiv (of_int (DocFrequency c w)) (of_int (TotalDocuments c)))
      else flog (fdiv (of_int 1) (of_int (TotalDocuments c)))).
Proof.
  intros Ht Hl. pose proof (trained_well_formed c Ht) as Hwf.
  rewrite calculate_log_likelihood_wf by done. unfold logLikelihood.
  pose proof (wf_LabelWordFrequency c label w Hwf) as Hlw.
  assert (LabelFrequency c label = 0) as Hlf
    by (unfold LabelFrequency, count_of; by rewrite Hl).
  destruct (Z.ltb_spec 0 (LabelWordFrequency c label w)); [lia|].
  destruct (decide (w ∈ Vocabulary c)) as [Hw|Hw];
    rewrite vocabulary_doc_pos in Hw by done;
    destruct (Z.ltb_spec 0 (DocFrequency c w)); (done || lia).
Qed.

(** ** Prediction: further properties *)

Lemma argmax_fold_result `{F : FloatOps} (sc : string → double)
    (es : list (string * Z)) (best : string * double) :
  fold_left (argmax_step sc) es best = best ∨
  ∃ e, e ∈ es ∧ fold_left (argmax_step sc) es best = (e.1, sc e.1).
Proof.
  revert best. induction es as [|e es IH]; intros best; simpl; [by left|].
  destruct (IH (argmax_step sc best e)) as [Heq | (e' & He' & Heq)].
  - rewrite Heq. unfold argmax_step.
    destruct (fgt _ _ || _); [|by left].
    right. exists e. split; [by left | done].
  - right. exists e'. split; [by right | done].
Qed.

(** X11. On a trained classifier [predict] never faults, and what it
    returns is either a label of the training data together with the
    score of that label, or the initial pair of the empty label and
    [lowest]; it never returns any other label. *)
Theorem predict_returns_trained_label `{F : FloatOps} (c : Classifier) (content : string) :
  trained c →
  ∃ l s, predict c content = Ok (l, s) ∧
         ((l = ""%string ∧ s = lowest) ∨
          (is_Some (numPosts_label c !! l) ∧
           s = score c (set_items (unique_words content)) l)).
Proof.
  intros Ht. rewrite predict_wf by (by apply trained_well_formed).
  destruct (argmax_fold_result (score c (set_items (unique_words content)))
              (map_items (numPosts_label c)) (""%string, lowest))
    as [-> | ([l n] & He & ->)].
  - exists ""%string, lowest. split; [done | by left].
  - simpl. eexists _, _. split; [done|]. right. split; [|done].
    apply elem_of_map_items in He. by eexists.
Qed.

(** X12. [predict] reads the content as a set of words: swapping two texts
    joined by whitespace, or repeating a text, does not change the
    prediction. *)
Theorem predict_ignores_word_order `{F : FloatOps} (c : Classifier)
    (s1 s2 : string) (sp sp' : ascii) :
  isspace sp = true → isspace sp' = true →
  predict c (s1 +:+ String sp s2) = predict c (s2 +:+ String sp' s1) ∧
  predict c (s1 +:+ String sp s1) = predict c s1.
Proof.
  intros Hsp Hsp'. unfold predict, unique_words.
  rewrite !extract_words_app by done. rewrite !list_to_set_app_L.
  split.
  - by rewrite (comm_L (∪)).
  - by rewrite (idemp_L (∪)).
Qed.

(** ** The dump and the program: further properties *)

Section DumpParameters.
Context `{F : FloatOps}.

Lemma foldM_cons {A B : Type} (f : B → A → result B) (x : A) (l : list A) (b : B) :
  foldM f (x :: l) b = f b x ≫= foldM f l.
Proof. done. Qed.

Lemma parameter_line_wf (c : Classifier) (label : string) (inner : gmap string Z)
    (out : list out_item) (it : string * Z) :
  well_formed c →
  numPosts_label_word c !! label = Some inner → inner !! it.1 = Some it.2 →
  parameter_line c label out it =
  Ok (out ++ [OStr "  "; OStr label; OStr ":"; OStr it.1; OStr ", count = ";
              OInt it.2; OStr ", log-likelihood = ";
              ODouble (flog (fdiv (of_int it.2) (of_int (LabelFrequency c label))));
              OEndl]).
Proof.
  intros Hwf Hinner Hit. unfold parameter_line.
  rewrite calculate_log_likelihood_wf by done. simpl.
  assert (LabelWordFrequency c label it.1 = it.2) as Hlw.
  { unfold LabelWordFrequency, count_of. by rewrite Hinner; simpl; rewrite Hit. }
  pose proof (wf_label_word c Hwf label inner it.1 it.2 Hinner Hit) as Hpos.
  unfold logLikelihood. rewrite Hlw.
  destruct (Z.ltb_spec 0 it.2); [done | lia].
Qed.

Lemma parameter_lines_wf (c : Classifier) (label : string) (inner : gmap string Z)
    (items : list (string * Z)) (out : list out_item) :
  well_formed c →
  numPosts_label_word c !! label = Some inner →
  (∀ it, it ∈ items → inner !! it.1 = Some it.2) →
  foldM (parameter_line c label) items out =
  Ok (out ++ flat_map (λ it : string * Z,
               [OStr "  "; OStr label; OStr ":"; OStr it.1; OStr ", count = ";
                OInt it.2; OStr ", log-likelihood = ";
                ODouble (flog (fdiv (of_int it.2) (of_int (LabelFrequency c label))));
                OEndl]) items).
Proof.
  intros Hwf Hinner. revert out.
  induction items as [|it items IH]; intros out Hitems.
  - simpl. by rewrite app_nil_r.
  - rewrite foldM_cons.
    rewrite (parameter_line_wf c label inner) by (done || apply Hitems; left).
    simpl mbind. unfold result_bind.
    rewrite IH by (intros it' Hit'; apply Hitems; by right).
    simpl flat_map. by rewrite <- app_assoc.
Qed.

Lemma parameter_sections_wf (c : Classifier)
    (entries : list (string * gmap string Z)) (out : list out_item) :
  well_formed c →
  (∀ e, e ∈ entries → numPosts_label_word c !! e.1 = Some e.2) →
  foldM (λ out (entry : string * gmap string Z),
           foldM (parameter_line c entry.1) (map_items entry.2) out) entries out =
  Ok (out ++ flat_map (λ entry : string * gmap string Z,
        flat_map (λ it : string * Z,
          [OStr "  "; OStr entry.1; OStr ":"; OStr it.1; OStr ", count = ";
           OInt it.2; OStr ", log-likelihood = ";
           ODouble (flog (fdiv (of_int it.2) (of_int (LabelFrequency c entry.1))));
           OEndl]) (map_items entry.2)) entries).
Proof.
  intros Hwf. revert out.
  induction entries as [|e entries IH]; intros out Hentries.
  - simpl. by rewrite app_nil_r.
  - rewrite foldM_cons.
    rewrite (parameter_lines_wf c e.1 e.2); [|done|apply Hentries; left|].
    + simpl mbind. unfold result_bind.
      rewrite IH by (intros e' He'; apply Hentries; by right).
      simpl flat_map. by rewrite <- app_assoc.
    + intros [w n] Hit. by apply elem_of_map_items.
Qed.

Lemma print_classifier_parameters_wf (c : Classifier) :
  well_formed c →
  print_classifier_parameters c =
  Ok (print_classes c ++ [OStr "classifier parameters:"; OEndl]
      ++ flat_map (λ entry : string * gmap string Z,
           flat_map (λ it : string * Z,
             [OStr "  "; OStr entry.1; OStr ":"; OStr it.1; OStr ", count = ";
              OInt it.2; OStr ", log-likelihood = ";
              ODouble (flog (fdiv (of_int it.2) (of_int (LabelFrequency c entry.1))));
              OEndl]) (map_items entry.2)) (map_items (numPosts_label_word c))).
Proof.
  intros Hwf. unfold print_classifier_parameters.
  rewrite parameter_sections_wf; [by rewrite <- app_assoc | done |].
  intros [l inner] He. by apply elem_of_map_items.
Qed.

(** X13. On a trained classifier the dump does not fault, and its
    "classifier parameters:" section has one line for every label and
    every word counted under it, labels and words in ascending order,
    with the count and, as log-likelihood, the first tier
    [ln(count / LabelFrequency[label])]: the two backoff tiers never show
    in the dump. *)
Theorem dump_parameters_first_tier (c : Classifier) :
  trained c →
  print_classifier_parameters c =
  Ok (print_classes c ++ [OStr "classifier parameters:"; OEndl]
      ++ flat_map (λ entry : string * gmap string Z,
           flat_map (λ it : string * Z,
             [OStr "  "; OStr entry.1; OStr ":"; OStr it.1; OStr ", count = ";
              OInt it.2; OStr ", log-likelihood = ";
              ODouble (flog (fdiv (of_int it.2) (of_int (LabelFrequency c entry.1))));
              OEndl]) (map_items entry.2)) (map_items (numPosts_label_word c))).
Proof.
  intros Ht. apply print_classifier_parameters_wf.
  by apply trained_well_formed.
Qed.

Lemma print_classifier_parameters_same_tables (c c' : Classifier) :
  same_tables c c' → print_classifier_parameters c = print_classifier_parameters c'.
Proof.
  destruct c, c'. intros (Ht & Hv & Hw & Hl & Hlw). simpl in *. subst. reflexivity.
Qed.

(** X14. The classes and the parameters that the dump prints do not depend
    on the order of the rows of the training file. *)
Theorem dump_ignores_training_order (rows rows' : list csv_row) (c c' : Classifier) :
  rows ≡ₚ rows' →
  train_rows rows empty_classifier = Ok c →
  train_rows rows' empty_classifier = Ok c' →
  print_classifier_parameters c = print_classifier_parameters c'.
Proof.
  intros Hp Hc Hc'. apply print_classifier_parameters_same_tables.
  by eapply train_rows_perm.
Qed.

(** X15. With one argument naming a readable file of at most [INT_MAX]
    rows, [main] does not fault: it trains on the rows, writes the
    training data and then the parameters of the trained classifier, and
    exits with status 0. *)
Theorem main_dump_mode (fs : file_system) (prog train_file : string)
    (rows : list csv_row) :
  fs train_file = Some rows → Z.of_nat (length rows) ≤ INT_MAX →
  ∃ c params,
    train_rows rows empty_classifier = Ok c ∧
    print_classifier_parameters c = Ok params ∧
    main fs [prog; train_file] = Ok (print_training_data c ++ params, 0).
Proof.
  intros Hfs Hlen. destruct (train_total rows Hlen) as [c Hc].
  assert (well_formed c) as Hwf by (apply trained_well_formed; by exists rows).
  exists c. eexists. split; [done|].
  split; [by apply print_classifier_parameters_wf|].
  unfold main, train. simpl. rewrite Hfs, Hc. simpl.
  by rewrite print_classifier_parameters_wf.
Qed.

Lemma test_row_wf (c : Classifier) (row : csv_row) (correct total : Z)
    (out : list out_item) :
  well_formed c → 0 ≤ correct ≤ total → total < INT_MAX →
  ∃ out',
    test_row c (correct, total, out) row =
    Ok (correct + (if decide (predicted_label c row = Some (row_get row "tag"))
                   then 1 else 0),
        total + 1, out').
Proof.
  intros Hwf Hc Hlt. unfold test_row, predicted_label.
  rewrite (proj2 (int_incr_Ok total _) (conj Hlt eq_refl)). simpl.
  rewrite predict_wf by done.
  destruct (fold_left _ _ _) as [l s]. simpl.
  destruct (decide (l = row_get row "tag")) as [->|Hne].
  - assert (correct < INT_MAX) as Hlt' by lia.
    rewrite (proj2 (int_incr_Ok correct _) (conj Hlt' eq_refl)). simpl.
    rewrite decide_True by done. by eexists.
  - simpl. rewrite decide_False by congruence. rewrite Z.add_0_r. by eexists.
Qed.

Lemma test_rows_wf (c : Classifier) (tests : list csv_row) (correct total : Z)
    (out : list out_item) :
  well_formed c → 0 ≤ correct ≤ total →
  total + Z.of_nat (length tests) ≤ INT_MAX →
  ∃ out',
    foldM (test_row c) tests (correct, total, out) =
    Ok (correct + count_rows (λ row, predicted_label c row = Some (row_get row "tag")) tests,
        total + Z.of_nat (length tests), out').
Proof.
  intros Hwf. revert correct total out.
  induction tests as [|row tests IH]; intros correct total out Hc Hlen.
  - exists out. simpl. rewrite count_rows_nil. do 3 f_equal; lia.
  - change (length (row :: tests)) with (S (length tests)) in *.
    rewrite Nat2Z.inj_succ in *.
    destruct (test_row_wf c row correct total out Hwf Hc) as [out1 Hstep]; [lia|].
    rewrite foldM_cons, Hstep. simpl mbind. unfold result_bind.
    edestruct (IH (correct + (if decide (predicted_label c row = Some (row_get row "tag"))
                              then 1 else 0)) (total + 1) out1) as [out' Hout'].
    + destruct (decide _); lia.
    + lia.
    + exists out'. rewrite Hout', count_rows_cons. do 3 f_equal; lia.
Qed.

(** X16. With two arguments naming readable files of at most [INT_MAX]
    rows each, [main] does not fault and exits with status 0; the last
    line it writes reports, as correct, the number of test rows whose tag
    is the label [predict] returns for their content, out of the number
    of test rows. *)
Theorem main_test_mode (fs : file_system) (prog train_file test_file : string)
    (rows tests : list csv_row) :
  fs train_file = Some rows → fs test_file = Some tests →
  Z.of_nat (length rows) ≤ INT_MAX → Z.of_nat (length tests) ≤ INT_MAX →
  ∃ c out,
    train_rows rows empty_classifier = Ok c ∧
    main fs [prog; train_file; test_file] =
    Ok (out ++ [OStr "performance: ";
                OInt (count_rows
                        (λ row, predicted_label c row = Some (row_get row "tag")) tests);
                OStr " / "; OInt (Z.of_nat (length tests));
                OStr " posts predicted correctly"; OEndl; OEndl], 0).
Proof.
  intros Htrain Htest Hlen Hlen'. destruct (train_total rows Hlen) as [c Hc].
  assert (well_formed c) as Hwf by (apply trained_well_formed; by exists rows).
  exists c.
  unfold main, train. simpl. rewrite Htrain, Hc. simpl. rewrite Htest.
  edestruct (test_rows_wf c tests 0 0) as [out' Hout']; [done | lia | simpl; lia |].
  rewrite Hout'. simpl. by exists out'.
Qed.
End DumpParameters.

(** ** The further properties at concrete inputs *)

Section FurtherWitnesses.
Import RealArith.
#[local] Existing Instance RealOps.

Lemma unique_words_tokens_witness :
  "great"%string ∈ unique_words "great game" ∧
  "great"%string ≠ ""%string ∧
  string_forall (λ ch, negb (isspace ch)) "great" = true.
Proof.
  assert ("great"%string ∈ unique_words "great game") as H.
  { apply elem_of_unique_words.
    change ("great"%string ∈ ["great"; "game"]%string). by left. }
  split; [exact H|]. exact (unique_words_tokens "great game" "great" H).
Defined.

Lemma unique_words_join_witness :
  isspace " " = true ∧
  unique_words ("a b" +:+ String " " "b c") = unique_words "a b" ∪ unique_words "b c".
Proof.
  split; [reflexivity|]. exact (unique_words_join "a b" "b c" " " eq_refl).
Defined.

Lemma training_overflow_boundary_witness :
  (Z.of_nat (length xxxy_rows) ≤ INT_MAX ∧
   ∃ c, train_rows xxxy_rows empty_classifier = Ok c) ∧
  (INT_MAX < Z.of_nat (length (replicate (Z.to_nat (INT_MAX + 1)) (∅ : csv_row))) ∧
   train_rows (replicate (Z.to_nat (INT_MAX + 1)) (∅ : csv_row)) empty_classifier =
   Fault SignedOverflow).
Proof.
  assert (Z.of_nat (length xxxy_rows) ≤ INT_MAX) as H by (by vm_compute).
  assert (INT_MAX <
          Z.of_nat (length (replicate (Z.to_nat (INT_MAX + 1)) (∅ : csv_row)))) as H'.
  { rewrite length_replicate. rewrite Z2Nat.id; unfold INT_MAX; lia. }
  split; (split; [done|]).
  - exact (proj2 (proj1 (training_overflow_boundary xxxy_rows)) H).
  - exact (proj2 (training_overflow_boundary _) H').
Defined.

Lemma count_bounds_witness :
  trained xxxy ∧
  0 ≤ LabelWordFrequency xxxy "x" "a" ∧
  LabelWordFrequency xxxy "x" "a" ≤ LabelFrequency xxxy "x" ∧
  LabelFrequency xxxy "x" ≤ TotalDocuments xxxy ∧
  LabelWordFrequency xxxy "x" "a" ≤ DocFrequency xxxy "a" ∧
  DocFrequency xxxy "a" ≤ TotalDocuments xxxy ∧
  TotalDocuments xxxy ≤ INT_MAX.
Proof.
  split; [exact trained_xxxy|]. exact (count_bounds xxxy "x" "a" trained_xxxy).
Defined.

Lemma counts_closed_form_witness :
  train_rows xxxy_rows empty_classifier = Ok xxxy ∧
  TotalDocuments xxxy = Z.of_nat (length xxxy_rows) ∧
  LabelFrequency xxxy "x" = count_rows (λ row, row_get row "tag" = "x"%string) xxxy_rows ∧
  trainingData xxxy = row_pair <$> xxxy_rows.
Proof.
  split; [exact train_xxxy|].
  destruct (counts_closed_form xxxy_rows xxxy train_xxxy) as (Ht & Hl & _ & _ & _ & Hd).
  split; [exact Ht|]. split; [exact (Hl "x"%string) | exact Hd].
Defined.

Lemma print_training_data_replay_witness :
  train_rows b_then_a_rows empty_classifier = Ok b_then_a ∧
  print_training_data (F := RealOps) b_then_a =
  [OStr "training data:"; OEndl]
  ++ flat_map (λ row : csv_row,
       [OStr "  label = "; OStr (row_get row "tag"); OStr ", content = ";
        OStr (row_get row "content"); OEndl]) b_then_a_rows
  ++ [OStr "trained on "; OInt (Z.of_nat (length b_then_a_rows)); OStr " examples"; OEndl;
      OStr "vocabulary size = "; OInt (Z.of_nat (size (Vocabulary b_then_a))); OEndl;
      OEndl].
Proof.
  split; [exact train_b_then_a|].
  exact (print_training_data_replay (F := RealOps) b_then_a_rows b_then_a train_b_then_a).
Defined.

Lemma vocabulary_iff_counted_witness :
  trained xxxy ∧
  ("a"%string ∈ Vocabulary xxxy ↔ 0 < DocFrequency xxxy "a") ∧
  ("a"%string ∈ Vocabulary xxxy ↔ ∃ l, 0 < LabelWordFrequency xxxy l "a").
Proof.
  split; [exact trained_xxxy|]. exact (vocabulary_iff_counted xxxy "a" trained_xxxy).
Defined.

Lemma unseen_word_floor_witness :
  trained xxxy ∧ ("zzz"%string ∉ Vocabulary xxxy) ∧
  calculate_log_likelihood (F := RealOps) xxxy "x" "zzz" =
  Ok (flog (fdiv (of_int 1) (of_int (TotalDocuments xxxy)))).
Proof.
  assert ("zzz"%string ∉ Vocabulary xxxy) as H.
  { apply (bool_decide_unpack _). by vm_compute. }
  split; [exact trained_xxxy|]. split; [exact H|].
  exact (unseen_word_floor (F := RealOps) xxxy "x" "zzz" trained_xxxy H).
Defined.

Lemma unseen_label_backoff_witness :
  trained xxxy ∧ numPosts_label xxxy !! "z"%string = None ∧
  calculate_log_likelihood (F := RealOps) xxxy "z" "a" =
  Ok (if decide ("a"%string ∈ Vocabulary xxxy)
      then flog (fdiv (of_int (DocFrequency xxxy "a")) (of_int (TotalDocuments xxxy)))
      else flog (fdiv (of_int 1) (of_int (TotalDocuments xxxy)))).
Proof.
  split; [exact trained_xxxy|]. split; [reflexivity|].
  exact (unseen_label_backoff (F := RealOps) xxxy "z" "a" trained_xxxy eq_refl).
Defined.

Lemma predict_returns_trained_label_witness :
  trained sports_politics ∧
  ∃ l s, predict (F := RealOps) sports_politics "great" = Ok (l, s) ∧
         ((l = ""%string ∧ s = lowest) ∨
          (is_Some (numPosts_label sports_politics !! l) ∧
           s = score sports_politics (set_items (unique_words "great")) l)).
Proof.
  split; [exact trained_sports_politics|].
  exact (predict_returns_trained_label (F := RealOps) sports_politics "great"
           trained_sports_politics).
Defined.

Lemma predict_ignores_word_order_witness :
  isspace " " = true ∧ isspace "010" = true ∧
  predict (F := RealOps) sports_politics ("great" +:+ String " " "game") =
    predict (F := RealOps) sports_politics ("game" +:+ String "010" "great") ∧
  predict (F := RealOps) sports_politics ("great" +:+ String " " "great") =
    predict (F := RealOps) sports_politics "great".
Proof.
  split; [reflexivity|]. split; [reflexivity|].
  exact (predict_ignores_word_order (F := RealOps) sports_politics "great" "game"
           " " "010" eq_refl eq_refl).
Defined.

Lemma dump_parameters_first_tier_witness :
  trained xxxy ∧
  map_items (numPosts_label_word xxxy) =
    [("x"%string, {["a" := 2; "b" := 2; "c" := 1]}%string);
     ("y"%string, {["a"%string := 1]})] ∧
  print_classifier_parameters (F := RealOps) xxxy =
  Ok (print_classes xxxy ++ [OStr "classifier parameters:"; OEndl]
      ++ flat_map (λ entry : string * gmap string Z,
           flat_map (λ it : string * Z,
             [OStr "  "; OStr entry.1; OStr ":"; OStr it.1; OStr ", count = ";
              OInt it.2; OStr ", log-likelihood = ";
              ODouble (flog (fdiv (of_int it.2)
                                  (of_int (LabelFrequency xxxy entry.1))));
              OEndl]) (map_items entry.2))
           (map_items (numPosts_label_word xxxy))).
Proof.
  split; [exact trained_xxxy|]. split; [by vm_compute|].
  exact (dump_parameters_first_tier (F := RealOps) xxxy trained_xxxy).
Defined.

Lemma dump_ignores_training_order_witness :
  sports_politics_rows ≡ₚ reverse sports_politics_rows ∧
  train_rows sports_politics_rows empty_classifier = Ok sports_politics ∧
  train_rows (reverse sports_politics_rows) empty_classifier = Ok politics_sports ∧
  print_classifier_parameters (F := RealOps) sports_politics =
  print_classifier_parameters (F := RealOps) politics_sports.
Proof.
  assert (sports_politics_rows ≡ₚ reverse sports_politics_rows) as Hp
    by apply Permutation_sym, reverse_Permutation.
  split; [exact Hp|]. split; [exact train_sports_politics|].
  split; [exact train_politics_sports|].
  exact (dump_ignores_training_order (F := RealOps) _ _ _ _ Hp
           train_sports_politics train_politics_sports).
Defined.

Lemma main_dump_mode_witness :
  sample_files "train.csv"%string = Some sports_politics_rows ∧
  Z.of_nat (length sports_politics_rows) ≤ INT_MAX ∧
  ∃ c params,
    train_rows sports_politics_rows empty_classifier = Ok c ∧
    print_classifier_parameters (F := RealOps) c = Ok params ∧
    main (F := RealOps) sample_files ["classifier.exe"; "train.csv"]%string =
      Ok (print_training_data c ++ params, 0).
Proof.
  assert (Z.of_nat (length sports_politics_rows) ≤ INT_MAX) as H by (by vm_compute).
  split; [reflexivity|]. split; [exact H|].
  exact (main_dump_mode (F := RealOps) sample_files "classifier.exe" "train.csv"
           sports_politics_rows eq_refl H).
Defined.

Lemma main_test_mode_witness :
  sample_files "train.csv"%string = Some sports_politics_rows ∧
  sample_files "test.csv"%string =
    Some [post "politics" "great"; post "sports" "great"] ∧
  ∃ c out,
    train_rows sports_politics_rows empty_classifier = Ok c ∧
    main (F := RealOps) sample_files ["classifier.exe"; "train.csv"; "test.csv"]%string =
    Ok (out ++ [OStr "performance: ";
                OInt (count_rows
                        (λ row, predicted_label c row = Some (row_get row "tag"))
                        [post "politics" "great"; post "sports" "great"]);
                OStr " / "; OInt (Z.of_nat 2);
                OStr " posts predicted correctly"; OEndl; OEndl], 0).
Proof.
  split; [reflexivity|]. split; [reflexivity|].
  exact (main_test_mode (F := RealOps) sample_files "classifier.exe" "train.csv" "test.csv"
           sports_politics_rows [post "politics" "great"; post "sports" "great"]
           eq_refl eq_refl ltac:(by vm_compute) ltac:(by vm_compute)).
Defined.

End FurtherWitnesses.

(** * Prediction: scores and the arg-max *)

(** ** Every score is a sum of logarithms of ratios of counts *)

Section ScoreTerms.
Context `{F : FloatOps}.

Lemma logPrior_is_ratio (c : Classifier) (l : string) :
  well_formed c → is_Some (numPosts_label c !! l) →
  ∃ p q : Z, 1 ≤ p ≤ q ∧ q ≤ INT_MAX ∧
             logPrior c l = flog (fdiv (of_int p) (of_int q)).
Proof.
  intros Hwf [n Hn]. pose proof (wf_label c Hwf l n Hn) as Hb.
  pose proof (wf_total c Hwf) as Ht.
  exists (LabelFrequency c l), (TotalDocuments c).
  assert (LabelFrequency c l = n) as Hlf
    by (unfold LabelFrequency, count_of; by rewrite Hn).
  unfold TotalDocuments. rewrite Hlf. split; [lia|]. split; [lia|].
  unfold logPrior, TotalDocuments. by rewrite Hlf.
Qed.

Lemma logLikelihood_is_ratio (c : Classifier) (l w : string) :
  well_formed c → is_Some (numPosts_label c !! l) →
  ∃ p q : Z, 1 ≤ p ≤ q ∧ q ≤ INT_MAX ∧
             logLikelihood c l w = flog (fdiv (of_int p) (of_int q)).
Proof.
  intros Hwf [n Hn]. pose proof (wf_label c Hwf l n Hn) as Hb.
  pose proof (wf_total c Hwf) as Ht.
  pose proof (wf_LabelWordFrequency c l w Hwf) as Hlw.
  pose proof (wf_LabelFrequency c l Hwf) as Hlf.
  pose proof (wf_DocFrequency c w Hwf) as Hdf.
  unfold logLikelihood.
  destruct (Z.ltb_spec 0 (LabelWordFrequency c l w)).
  - exists (LabelWordFrequency c l w), (LabelFrequency c l).
    split; [lia|]. split; [lia | done].
  - destruct (Z.ltb_spec 0 (DocFrequency c w)).
    + exists (DocFrequency c w), (TotalDocuments c). unfold TotalDocuments.
      split; [lia|]. split; [lia | done].
    + exists 1, (TotalDocuments c). unfold TotalDocuments.
      split; [lia|]. split; [lia | done].
Qed.
End ScoreTerms.

(** ** Scores stay above [lowest] *)

Section ScoreFloor.
Context `{F : FloatOps} `{L : !FloatLaws F} `{S : !FloatSums F}.

Lemma fge_fgt_trans (x y z : double) :
  fge x y = true → fgt y z = true → fgt x z = true.
Proof.
  unfold fge. intros [Hgt | Heq]%orb_true_iff Hyz.
  - by eapply fgt_trans.
  - by eapply feq_fgt.
Qed.

Lemma fgt_fge (x y : double) : fgt x y = true → fge x y = true.
Proof. unfold fge. by intros ->. Qed.

Lemma score_floor (c : Classifier) (ws : list string) (l : string) :
  well_formed c → is_Some (numPosts_label c !! l) →
  fge (score c ws l) (of_int (- 2 ^ 59)) = true.
Proof.
  intros Hwf Hl. unfold score.
  assert (fge (logPrior c l) (of_int (- 2 ^ 59)) = true) as Hp.
  { destruct (logPrior_is_ratio c l Hwf Hl) as (p & q & Hpq & Hq & ->).
    apply fgt_fge. eapply fge_fgt_trans; [by apply log_ratio_floor|].
    apply term_floor_above. }
  revert Hp. generalize (logPrior c l).
  induction ws as [|w ws IH]; intros s0 Hs0; simpl; [done|].
  apply IH. apply fadd_floor; [done|].
  destruct (logLikelihood_is_ratio c l w Hwf Hl) as (p & q & Hpq & Hq & ->).
  by apply log_ratio_floor.
Qed.

(** The score of a trained label exceeds the initial [best_score]. *)
Lemma score_above_lowest (c : Classifier) (ws : list string) (l : string) :
  well_formed c → is_Some (numPosts_label c !! l) →
  fgt (score c ws l) lowest = true.
Proof.
  intros Hwf Hl. eapply fge_fgt_trans; [by apply score_floor|].
  apply sum_floor_above.
Qed.

Lemma predict_great :
  predict sports_politics "great" =
  Ok ("politics"%string, score sports_politics ["great"%string] "politics").
Proof.
  rewrite predict_wf by apply well_formed_sports_politics.
  change (set_items (unique_words "great")) with ["great"%string].
  change (map_items (numPosts_label sports_politics))
    with [("politics"%string, 1); ("sports"%string, 1)].
  simpl. unfold argmax_step at 2. simpl.
  assert (fgt (score sports_politics ["great"%string] "politics") lowest = true)
    as Hgt.
  { apply score_above_lowest; [apply well_formed_sports_politics | by eexists]. }
  rewrite Hgt. simpl. unfold argmax_step. simpl.
  change (score sports_politics ["great"%string] "sports")
    with (score sports_politics ["great"%string] "politics").
  by rewrite fgt_irrefl, andb_false_r.
Qed.

(** C2. For every trained classifier with at least one label, [predict]
    returns a trained label together with its score; no label scores
    higher, and every label whose score equals the returned one is
    lexicographically no smaller than the returned label.  The result does
    not depend on the order of the training posts.  After training on
    [("sports", "great game")] and [("politics", "great debate")] the two
    labels have the same score for ["great"] and the prediction is
    ["politics"].  The arithmetic is any that obeys [FloatLaws] and
    [FloatSums]. *)
Theorem predict_argmax_lexicographic :
  (∀ (c : Classifier) (content : string),
      trained c → numPosts_label c ≠ ∅ →
      ∃ best,
        predict c content =
          Ok (best, score c (set_items (unique_words content)) best) ∧
        is_Some (numPosts_label c !! best) ∧
        ∀ l, is_Some (numPosts_label c !! l) →
             fgt (score c (set_items (unique_words content)) l)
                 (score c (set_items (unique_words content)) best) = false ∧
             (feq (score c (set_items (unique_words content)) l)
                  (score c (set_items (unique_words content)) best) = true →
              String.le best l))
  ∧ (∀ (rows rows' : list csv_row) (c c' : Classifier) (content : string),
        rows ≡ₚ rows' →
        train_rows rows empty_classifier = Ok c →
        train_rows rows' empty_classifier = Ok c' →
        predict c content = predict c' content)
  ∧ (∀ c : Classifier,
        train_rows [post "sports" "great game"; post "politics" "great debate"]
          empty_classifier = Ok c →
        score c ["great"%string] "sports" = score c ["great"%string] "politics" ∧
        predict c "great" = Ok ("politics"%string, score c ["great"%string] "politics")).
Proof.
  split; [|split].
  - intros c content Ht Hne. pose proof (trained_well_formed c Ht) as Hwf.
    apply predict_best; [done|].
    apply map_choose in Hne as (l & n & Hl). exists l.
    split; [by eexists|]. apply score_above_lowest; [done | by eexists].
  - intros rows rows' c c' content Hp Hc Hc'.
    apply predict_same_tables. by eapply train_rows_perm.
  - intros c Hc. fold sports_politics_rows in Hc.
    rewrite train_sports_politics in Hc. injection Hc as <-.
    split; [by vm_compute | apply predict_great].
Qed.
End ScoreFloor.

(** ** The laws in the saturating instance *)

Section SatFacts.
Import Reals.Reals Lra.
Import RealArith.
Local Open Scope R_scope.

#[export] Instance SatLaws : FloatLaws SatOps.
Proof.
  split; simpl.
  - intros x. apply Rgtb_false. lra.
  - intros x y z Hxy%Rgtb_true Hyz%Rgtb_true. apply Rgtb_true. lra.
  - intros x y z Hxy%Reqb_true Hyz%Rgtb_true. apply Rgtb_true. lra.
Qed.

Lemma ln_INT_MAX : ln (IZR INT_MAX) < 32.
Proof.
  apply Rlt_trans with (ln (2 ^ 31)).
  - apply ln_increasing; [apply (IZR_lt 0); by vm_compute|].
    rewrite (pow_IZR 2 31). apply IZR_lt. by vm_compute.
  - rewrite ln_pow by lra. pose proof ln_2_lt_1.
    replace (INR 31) with 31 by (rewrite INR_IZR_INZ; done).
    lra.
Qed.

Lemma ln_ratio_floor (p q : Z) :
  (1 ≤ p ≤ q)%Z → (q ≤ INT_MAX)%Z → ln (IZR p / IZR q) > -32.
Proof.
  intros [Hp Hpq] Hq.
  assert (1 <= IZR p) by (by apply (IZR_le 1)).
  assert (1 <= IZR q) by (apply (IZR_le 1); lia).
  assert (ln (/ IZR q) <= ln (IZR p / IZR q)) as Hmono.
  { apply ln_le; [apply Rinv_0_lt_compat; lra|].
    unfold Rdiv. rewrite <- (Rmult_1_l (/ IZR q)) at 1.
    apply Rmult_le_compat_r; [|done]. left. apply Rinv_0_lt_compat. lra. }
  rewrite ln_Rinv in Hmono by lra.
  assert (ln (IZR q) <= ln (IZR INT_MAX))
    by (apply ln_le; [lra | by apply IZR_le]).
  pose proof ln_INT_MAX. lra.
Qed.

#[export] Instance SatSums : FloatSums SatOps.
Proof.
  split; unfold fge; simpl.
  - intros p q Hpq Hq. apply orb_true_iff. left. apply Rgtb_true.
    by apply ln_ratio_floor.
  - intros s t _ _. apply orb_true_iff.
    destruct (Rmax_r (s + t) (IZR (- 2 ^ 59))) as [Hlt | Heq].
    + left. by apply Rgtb_true.
    + right. by apply Reqb_true.
  - apply Rgtb_true. apply Rlt_gt, IZR_lt. by vm_compute.
  - apply Rgtb_true. unfold DBL_MAX. rewrite <- opp_IZR.
    apply Rlt_gt, IZR_lt. by vm_compute.
Qed.
End SatFacts.

(** * The log-prior in [predict] and in the dump *)

Section LogPrior.
Context `{F : FloatOps}.

(** The whole dump of the corpus with three posts ["x"] and one ["y"]. *)
Example print_classifier_parameters_xxxy :
  print_classifier_parameters xxxy =
  Ok [OStr "classes:"; OEndl;
      OStr "  "; OStr "x"; OStr ", "; OInt 3; OStr " examples, log-prior = ";
      ODouble (flog (fdiv (of_int 3) (of_int 4))); OEndl;
      OStr "  "; OStr "y"; OStr ", "; OInt 1; OStr " examples, log-prior = ";
      ODouble (flog (fdiv (of_int 1) (of_int 4))); OEndl;
      OStr "classifier parameters:"; OEndl;
      OStr "  "; OStr "x"; OStr ":"; OStr "a"; OStr ", count = "; OInt 2;
      OStr ", log-likelihood = "; ODouble (flog (fdiv (of_int 2) (of_int 3))); OEndl;
      OStr "  "; OStr "x"; OStr ":"; OStr "b"; OStr ", count = "; OInt 2;
      OStr ", log-likelihood = "; ODouble (flog (fdiv (of_int 2) (of_int 3))); OEndl;
      OStr "  "; OStr "x"; OStr ":"; OStr "c"; OStr ", count = "; OInt 1;
      OStr ", log-likelihood = "; ODouble (flog (fdiv (of_int 1) (of_int 3))); OEndl;
      OStr "  "; OStr "y"; OStr ":"; OStr "a"; OStr ", count = "; OInt 1;
      OStr ", log-likelihood = "; ODouble (flog (fdiv (of_int 1) (of_int 1))); OEndl].
Proof. by vm_compute. Qed.

(** C6. For a trained classifier with at least one document and a label
    present in [LabelFrequency]: [predict] is the arg-max loop over the
    labels in which the score of every label starts from
    [ln(LabelFrequency[l] / TotalDocuments)], to which the log-likelihoods
    of the words are added; the label is among the labels scored; when
    [predict] returns the label, the score it returns is that log-prior
    plus the log-likelihoods (unless the label is the empty string and no
    score exceeded [lowest]); and the dump written by
    [print_classifier_parameters] holds the line of the label with its
    count and that same log-prior. *)
Theorem log_prior_correct (c : Classifier) (label : string) :
  trained c → 0 < TotalDocuments c →
  is_Some (numPosts_label c !! label) →
  (∀ content : string,
      predict c content =
      Ok (fold_left
            (argmax_step
               (λ l, fold_left (λ s w, fadd s (logLikelihood c l w))
                       (set_items (unique_words content))
                       (flog (fdiv (of_int (LabelFrequency c l))
                                   (of_int (TotalDocuments c))))))
            (map_items (numPosts_label c)) (""%string, lowest))) ∧
  (label, LabelFrequency c label) ∈ map_items (numPosts_label c) ∧
  (∀ (content : string) (s : double),
      predict c content = Ok (label, s) →
      s = fold_left (λ s w, fadd s (logLikelihood c label w))
            (set_items (unique_words content))
            (flog (fdiv (of_int (LabelFrequency c label))
                        (of_int (TotalDocuments c))))
      ∨ (label = ""%string ∧ s = lowest)) ∧
  (∃ pre post,
      print_classifier_parameters c =
      Ok (pre ++ [OStr "  "; OStr label; OStr ", "; OInt (LabelFrequency c label);
                  OStr " examples, log-prior = ";
                  ODouble (flog (fdiv (of_int (LabelFrequency c label))
                                      (of_int (TotalDocuments c))));
                  OEndl] ++ post)).
Proof.
  intros Ht _ [n Hn]. pose proof (trained_well_formed c Ht) as Hwf.
  assert (LabelFrequency c label = n) as Hlf
    by (unfold LabelFrequency, count_of; by rewrite Hn).
  assert ((label, LabelFrequency c label) ∈ map_items (numPosts_label c)) as Hin
    by (rewrite Hlf; by apply elem_of_map_items).
  split; [|split; [done|split]].
  - intros content. by rewrite predict_wf.
  - intros content s. rewrite predict_wf by done.
    destruct (argmax_fold_result (score c (set_items (unique_words content)))
                (map_items (numPosts_label c)) (""%string, lowest))
      as [-> | ([l' n'] & He & ->)].
    + intros [= <- <-]. by right.
    + simpl. intros [= -> <-]. by left.
  - rewrite print_classifier_parameters_wf by done.
    destruct (flat_map_elem (class_line c) _ _ Hin) as (pre & post & Heq).
    unfold print_classes. rewrite Heq.
    exists ([OStr "classes:"; OEndl] ++ pre). eexists.
    rewrite <- !app_assoc. reflexivity.
Qed.
End LogPrior.

(** * The revised claims at concrete inputs *)

Section ArgmaxWitnesses.
Import RealArith.

Lemma sports_politics_has_labels : numPosts_label sports_politics ≠ ∅.
Proof.
  intros H.
  assert (numPosts_label sports_politics !! "sports"%string = Some 1) as Hx by done.
  rewrite H in Hx. by rewrite lookup_empty in Hx.
Qed.

Lemma predict_argmax_lexicographic_witness :
  FloatLaws SatOps ∧ FloatSums SatOps ∧
  trained sports_politics ∧ numPosts_label sports_politics ≠ ∅ ∧
  (∃ best,
      predict (F := SatOps) sports_politics "great" =
        Ok (best, score (F := SatOps) sports_politics
                    (set_items (unique_words "great")) best) ∧
      is_Some (numPosts_label sports_politics !! best) ∧
      ∀ l, is_Some (numPosts_label sports_politics !! l) →
           @fgt SatOps
             (score (F := SatOps) sports_politics (set_items (unique_words "great")) l)
             (score (F := SatOps) sports_politics (set_items (unique_words "great")) best)
           = false ∧
           (@feq SatOps
              (score (F := SatOps) sports_politics (set_items (unique_words "great")) l)
              (score (F := SatOps) sports_politics (set_items (unique_words "great")) best)
            = true → String.le best l)) ∧
  sports_politics_rows ≡ₚ reverse sports_politics_rows ∧
  predict (F := SatOps) sports_politics "great" =
    predict (F := SatOps) politics_sports "great" ∧
  predict (F := SatOps) sports_politics "great" =
    Ok ("politics"%string, score (F := SatOps) sports_politics ["great"%string] "politics").
Proof.
  pose proof (predict_argmax_lexicographic (F := SatOps) (L := SatLaws) (S := SatSums))
    as (Hbest & Hperm & Hex).
  assert (sports_politics_rows ≡ₚ reverse sports_politics_rows) as Hp
    by apply Permutation_sym, reverse_Permutation.
  split; [exact SatLaws|]. split; [exact SatSums|].
  split; [exact trained_sports_politics|].
  split; [exact sports_politics_has_labels|].
  split; [|split; [exact Hp|split]].
  - exact (Hbest sports_politics "great" trained_sports_politics
             sports_politics_has_labels).
  - exact (Hperm _ _ _ _ "great"%string Hp train_sports_politics train_politics_sports).
  - exact (proj2 (Hex sports_politics train_sports_politics)).
Defined.

Lemma train_rest_x_aab :
  train_rows [post "x" "a a b"; post "x" "c"; post "y" "a"] x_aab = Ok xxxy.
Proof. by vm_compute. Qed.

Lemma training_monotone_witness :
  train_rows [post "x" "a a b"; post "x" "c"; post "y" "a"] x_aab = Ok xxxy ∧
  (Vocabulary x_aab = {["a"; "b"]}%string ∧ Vocabulary xxxy = {["a"; "b"; "c"]}%string) ∧
  (numPosts_word x_aab !! "a"%string = Some 1 ∧
   numPosts_word xxxy !! "a"%string = Some 3) ∧
  (size (Vocabulary x_aab) ≤ size (Vocabulary xxxy))%nat ∧
  Vocabulary x_aab ⊆ Vocabulary xxxy ∧
  grows (numPosts_word x_aab) (numPosts_word xxxy) ∧
  (∀ w : string, DocFrequency x_aab w ≤ DocFrequency xxxy w) ∧
  grows (numPosts_label x_aab) (numPosts_label xxxy) ∧
  (∀ l : string, LabelFrequency x_aab l ≤ LabelFrequency xxxy l) ∧
  (∀ l inner, numPosts_label_word x_aab !! l = Some inner →
              ∃ inner', numPosts_label_word xxxy !! l = Some inner' ∧
                        grows inner inner') ∧
  (∀ l w : string, LabelWordFrequency x_aab l w ≤ LabelWordFrequency xxxy l w) ∧
  TotalDocuments x_aab ≤ TotalDocuments xxxy ∧
  trainingData x_aab `prefix_of` trainingData xxxy.
Proof.
  split; [exact train_rest_x_aab|]. split; [by split|]. split; [by split|].
  exact (training_monotone _ x_aab xxxy train_rest_x_aab).
Defined.

Lemma log_prior_correct_witness :
  trained xxxy ∧ 0 < TotalDocuments xxxy ∧
  is_Some (numPosts_label xxxy !! "x"%string) ∧
  LabelFrequency xxxy "x" = 3 ∧ TotalDocuments xxxy = 4 ∧
  (∀ content : string,
      predict (F := RealOps) xxxy content =
      Ok (fold_left
            (argmax_step
               (λ l, fold_left (λ s w, @fadd RealOps s (logLikelihood xxxy l w))
                       (set_items (unique_words content))
                       (@flog RealOps
                          (@fdiv RealOps (@of_int RealOps (LabelFrequency xxxy l))
                             (@of_int RealOps (TotalDocuments xxxy))))))
            (map_items (numPosts_label xxxy)) (""%string, @lowest RealOps))) ∧
  (∃ pre post,
      print_classifier_parameters (F := RealOps) xxxy =
      Ok (pre ++ [OStr "  "; OStr "x"; OStr ", "; OInt (LabelFrequency xxxy "x");
                  OStr " examples, log-prior = ";
                  @ODouble RealOps
                    (@flog RealOps
                       (@fdiv RealOps (@of_int RealOps (LabelFrequency xxxy "x"))
                          (@of_int RealOps (TotalDocuments xxxy))));
                  OEndl] ++ post)).
Proof.
  assert (is_Some (numPosts_label xxxy !! "x"%string)) as Hx by (by eexists).
  destruct (log_prior_correct (F := RealOps) xxxy "x" trained_xxxy eq_refl Hx)
    as (Hpredict & _ & _ & Hdump).
  split; [exact trained_xxxy|]. split; [reflexivity|]. split; [exact Hx|].
  split; [reflexivity|]. split; [reflexivity|].
  split; [exact Hpredict | exact Hdump].
Defined.
End ArgmaxWitnesses.
